(** * AssignmentTracker: the status-reconciliation engine

    A shallow embedding of [AssignmentTracker.py] and the properties of its
    reconciliation pipeline: roster loading, target-file selection, per-author
    aggregation of pull requests, status and score, the time/date constraint
    enforcer and the assembly of the report rows.

    Conventions of the embedding.
    - A Python [str] is a [string]; a character is a code point below 256
      (Latin-1), on which [str.lower], [str.strip] and the comparison
      operators of Python are reproduced exactly.
    - A [dict] is an insertion-ordered association list with unique keys,
      since the order of [dict.items()] is the order of the emitted rows.
    - The sets of [determine_status] are [gset string].  The set of the files
      of an author, which the pipeline also iterates, is the sequence of its
      insertions: its elements are those of the sequence, and the order in
      which Python iterates it, which depends on the hash seed of the process
      and on the insertions, is a field of the [World].
    - The working copies are a map from the paths that exist on disk to the
      files [os.walk] finds there; [clone_repo] changes it, entry after
      entry.
    - External collaborators (the [gh] command line, [git clone], [dateutil],
      the time-zone conversion) are the fields of a [World]; what they return
      is data of the run.
    - An uncaught Python exception is the [Raise] outcome of [result]. *)

From Stdlib Require Import Ascii String.
From stdpp Require Import base decidable list gmap sets strings.

Local Open Scope string_scope.
Local Open Scope list_scope.

(** ** Characters and strings *)

Module Str.

(** Code point of a character. *)
Definition ord (c : ascii) : nat := nat_of_ascii c.

(** [c.isupper()] for a code point below 256: A-Z, and the Latin-1 capitals
    0xC0-0xDE except the multiplication sign 0xD7. *)
Definition is_upper (c : ascii) : bool :=
  let n := ord c in
  (((65 <=? n) && (n <=? 90)) || ((192 <=? n) && (n <=? 222) && negb (n =? 215)))%nat.

(** [c.lower()]: the lower-case letter sits 32 code points higher. *)
Definition lower_char (c : ascii) : ascii :=
  if is_upper c then ascii_of_nat (ord c + 32) else c.

(** [s.lower()] *)
Fixpoint lower (s : string) : string :=
  match s with
  | EmptyString => EmptyString
  | String c s' => String (lower_char c) (lower s')
  end.

(** [c.isspace()] below 256: TAB, LF, VT, FF, CR, the separators
    0x1C-0x1F, the space, NEL (0x85) and the no-break space (0xA0). *)
Definition is_space (c : ascii) : bool :=
  let n := ord c in
  (((9 <=? n) && (n <=? 13)) || ((28 <=? n) && (n <=? 32)) || (n =? 133) || (n =? 160))%nat.

(** [s.lstrip()] and [s.rstrip()] over a character class. *)
Fixpoint lstrip_by (p : ascii -> bool) (s : string) : string :=
  match s with
  | EmptyString => EmptyString
  | String c s' => if p c then lstrip_by p s' else s
  end.

Fixpoint rstrip_by (p : ascii -> bool) (s : string) : string :=
  match s with
  | EmptyString => EmptyString
  | String c s' =>
      match rstrip_by p s' with
      | EmptyString => if p c then EmptyString else String c EmptyString
      | r => String c r
      end
  end.

(** [s.strip()] *)
Definition strip (s : string) : string := rstrip_by is_space (lstrip_by is_space s).

(** [s.rstrip('/')] *)
Definition rstrip_slash (s : string) : string := rstrip_by (Ascii.eqb "/") s.

(** [s.split(sep)] for a one-character separator: never the empty list. *)
Fixpoint split (sep : ascii) (s : string) : list string :=
  match s with
  | EmptyString => [EmptyString]
  | String c s' =>
      if Ascii.eqb c sep then EmptyString :: split sep s'
      else match split sep s' with
           | [] => [String c EmptyString]
           | w :: ws => String c w :: ws
           end
  end.

(** [sep.join(l)] *)
Fixpoint join (sep : string) (l : list string) : string :=
  match l with
  | [] => EmptyString
  | [x] => x
  | x :: l' => x ++ sep ++ join sep l'
  end.

(** [s.endswith(suffix)] *)
Definition endswith (s suffix : string) : bool :=
  let n := String.length s in
  let k := String.length suffix in
  (k <=? n)%nat && String.eqb (substring (n - k) k s) suffix.

(** [s1 > s2]: code points compared from the left, a proper prefix is
    smaller. *)
Definition gtb (s1 s2 : string) : bool := String.ltb s2 s1.

End Str.

(** ** Status of one author: [determine_status] *)

Definition determine_status (pr_files target_files : list string) : string :=
  let pr_files_set : gset string := list_to_set pr_files in
  let target_files_set : gset string := list_to_set target_files in
  let target_files_set : gset string := set_map Str.lower target_files_set in
  let pr_files_set : gset string := set_map Str.lower pr_files_set in
  if negb (bool_decide (target_files_set ⊆ pr_files_set)) then "Not Done"
  else "Done".

(** ** Exceptions *)

Inductive exn : Type :=
| KeyError            (* a missing dictionary key *)
| ParserError         (* [dateutil.parser.parse] rejects its argument *)
| ValueError          (* [max] of an empty sequence *)
| FileNotFoundError   (* [subprocess.run] does not find the executable *)
| IndexError          (* a list index out of range *)
| UnboundLocalError.  (* a local variable read before it is bound *)

Inductive result (A : Type) : Type :=
| Ok (a : A)
| Raise (e : exn).

Arguments Ok {A} a.
Arguments Raise {A} e.

#[global] Instance result_ret : MRet result := fun A a => Ok a.

#[global] Instance result_bind : MBind result := fun A B k m =>
  match m with
  | Ok a => k a
  | Raise e => Raise e
  end.

(** A [for] loop whose body may raise: the state is threaded from left to
    right and the first exception ends the loop. *)
Fixpoint for_each {A S : Type} (body : S -> A -> result S) (l : list A) (s : S)
  : result S :=
  match l with
  | [] => Ok s
  | a :: l' => s' ← body s a; for_each body l' s'
  end.

(** ** Dictionaries in insertion order *)

Module Dict.

Definition t (V : Type) : Type := list (string * V).

(** [d.get(k)] *)
Fixpoint get {V : Type} (k : string) (d : t V) : option V :=
  match d with
  | [] => None
  | (k', v) :: d' => if String.eqb k' k then Some v else get k d'
  end.

(** [d[k]]: [KeyError] when [k] is absent. *)
Definition item {V : Type} (k : string) (d : t V) : result V :=
  match get k d with
  | Some v => Ok v
  | None => Raise KeyError
  end.

(** [d[k] = v]: an existing key keeps its place, a new one goes last. *)
Fixpoint set {V : Type} (k : string) (v : V) (d : t V) : t V :=
  match d with
  | [] => [(k, v)]
  | (k', v') :: d' =>
      if String.eqb k' k then (k', v) :: d' else (k', v') :: set k v d'
  end.

(** [k in d] *)
Definition mem {V : Type} (k : string) (d : t V) : bool :=
  match get k d with Some _ => true | None => false end.

(** [d.keys()] and [d.items()] *)
Definition keys {V : Type} (d : t V) : list string := fst <$> d.
Definition items {V : Type} (d : t V) : list (string * V) := d.

End Dict.

(** ** Dates and times *)

(** A [datetime] in the zone [INDIA_TZ].  Every datetime the pipeline compares
    has been through [astimezone(INDIA_TZ)], a zone of constant offset, so the
    order of the instants is the order of the local fields. *)
Record datetime : Type := mkDatetime {
  year : nat; month : nat; day : nat;
  hour : nat; minute : nat; second : nat; microsecond : nat
}.

Definition dt_fields (d : datetime) : list nat :=
  [year d; month d; day d; hour d; minute d; second d; microsecond d].

Fixpoint lex_ltb (a b : list nat) : bool :=
  match a, b with
  | [], [] => false
  | [], _ :: _ => true
  | _ :: _, [] => false
  | x :: a', y :: b' => (x <? y)%nat || ((x =? y)%nat && lex_ltb a' b')
  end.

(** [d1 > d2] on datetimes *)
Definition dt_gtb (d1 d2 : datetime) : bool := lex_ltb (dt_fields d2) (dt_fields d1).

(** The ranges Python keeps for the fields of a [datetime] (the length of the
    month apart). *)
Definition dt_valid (d : datetime) : Prop :=
  (1 <= year d < 100 * 100 /\ 1 <= month d <= 12 /\ 1 <= day d <= 31 /\
   hour d < 24 /\ minute d < 60 /\ second d < 60 /\ microsecond d < 1000 * 1000)%nat.

Definition digit (n : nat) : ascii := ascii_of_nat (48 + n mod 10).

Definition pad2 (n : nat) : string :=
  String (digit (n / 10)) (String (digit n) EmptyString).

Definition pad4 (n : nat) : string :=
  String (digit (n / 1000)) (String (digit (n / 100)) (pad2 n)).

(** [d.strftime("%H:%M:%S")] *)
Definition strftime_HMS (d : datetime) : string :=
  pad2 (hour d) ++ ":" ++ pad2 (minute d) ++ ":" ++ pad2 (second d).

(** [d.strftime('%Y-%m-%d')]; the year is written with four digits (on every
    platform from the year 1000 on). *)
Definition strftime_Ymd (d : datetime) : string :=
  pad4 (year d) ++ "-" ++ pad2 (month d) ++ "-" ++ pad2 (day d).

(** [max(l, key=...)] over datetimes: the first of the greatest elements,
    [ValueError] on the empty list. *)
Fixpoint dt_max_from (best : datetime) (l : list datetime) : datetime :=
  match l with
  | [] => best
  | d :: l' => dt_max_from (if dt_gtb d best then d else best) l'
  end.

Definition dt_max (l : list datetime) : result datetime :=
  match l with
  | [] => Raise ValueError
  | d :: l' => Ok (dt_max_from d l')
  end.

(** ** Records of the pipeline *)

(** What [get_pr_details] returns when it succeeds. *)
Record pull_request : Type := mkPR {
  k_id : Z;
  k_author : string;
  k_files : list string;
  k_createdAt : datetime
}.

(** An element of the list [get_pr_list] returns: the details of a pull
    request, or the empty dictionary [{}] of a failed [gh pr view]. *)
Definition pr_details : Type := option pull_request.

(** [pr['author']], [pr['files']], [pr['id']] *)
Definition pr_get {A : Type} (f : pull_request -> A) (pr : pr_details) : result A :=
  match pr with
  | Some p => Ok (f p)
  | None => Raise KeyError
  end.

(** One record of the assignment feed; a missing key reads as [''], as
    [entry.get(key, '')] does. *)
Record entry : Type := mkEntry {
  e_repo_url : string;
  e_assignment : string;
  e_type : string;
  e_target_file : string;
  e_date : string
}.

(** One row of the report; [Date] is [None] for a synthesized row. *)
Record row : Type := mkRow {
  Repo : string;
  Name : string;
  Assignment : string;
  Date : option string;
  Files : string;
  Target_Files : string;
  Status : string;
  Score : Z;
  Time : string;
  Launched : string;
  Type_ : string
}.

(** The paths that exist on disk, each with the [files] component of the
    triples [os.walk] yields there (none for a plain file). *)
Abbreviation Disk := (gmap string (list (list string))).

(** What [git clone repo_url repo_dir] does. *)
Inductive git_outcome : Type :=
| GitMissing                              (* no [git] executable: [FileNotFoundError] *)
| GitFailed                               (* [CalledProcessError]: no directory is left *)
| GitCloned (tree : list (list string)).  (* the new directory, as [os.walk] finds it *)

(** The external collaborators of one run. *)
Record World : Type := mkWorld {
  (** [get_pr_list(repo_url)] *)
  get_pr_list : string -> list pr_details;
  (** [gh pr view --json commits]: [None] when the command fails
      ([CalledProcessError]), else the commit dates in [INDIA_TZ] *)
  gh_pr_commits : string -> Z -> option (list datetime);
  (** [git clone] of a repository *)
  git_clone : string -> git_outcome;
  (** the working copies on disk when the run starts *)
  working_copies : Disk;
  (** [dateutil.parser.parse]: [None] when it raises *)
  parser_parse : string -> option datetime;
  (** [.astimezone(INDIA_TZ)] *)
  astimezone_india : datetime -> datetime;
  (** the order in which this process iterates the set built by a sequence
      of insertions: each element of the set once *)
  set_iter : list string -> list string;
  set_iter_perm : forall l, set_iter l ≡ₚ elements (list_to_set l : gset string)
}.

(** ** The functions of [AssignmentTracker.py] *)

(** The characters [re.sub] replaces: the control characters 0x00-0x1F and
    the nine characters, the double quote (code 34) among them, that a
    directory name may not hold. *)
Definition invalid_dir_char (c : ascii) : bool :=
  (Str.ord c <=? 31)%nat
  || existsb (Ascii.eqb c) ["<"; ">"; ":"; "034"; "/"; "\"; "|"; "?"; "*"]%char.

Fixpoint re_sub_invalid (s : string) : string :=
  match s with
  | EmptyString => EmptyString
  | String c s' =>
      String (if invalid_dir_char c then "_"%char else c) (re_sub_invalid s')
  end.

Definition sanitize_repo_name (repo_url : string) : string :=
  let repo_name := List.last (Str.split "/" (Str.rstrip_slash repo_url)) EmptyString in
  re_sub_invalid repo_name.

(** [os.walk(repo_dir)]: nothing for a path that does not exist. *)
Definition os_walk (disk : Disk) (repo_dir : string) : list (list string) :=
  default [] (disk !! repo_dir).

(** [clone_repo]: a directory that exists is left alone; [CalledProcessError]
    is caught, the [FileNotFoundError] of a missing [git] is not. *)
Definition clone_repo (w : World) (repo_url : string) (disk : Disk) : result Disk :=
  let repo_dir := sanitize_repo_name repo_url in
  match disk !! repo_dir with
  | None =>
      match git_clone w repo_url with
      | GitCloned tree => Ok (<[repo_dir := tree]> disk)
      | GitFailed => Ok disk
      | GitMissing => Raise FileNotFoundError
      end
  | Some _ => Ok disk
  end.

Definition get_latest_commit_time (w : World) (repo_url : string) (id : Z)
  : result (option datetime) :=
  match gh_pr_commits w repo_url id with
  | Some commits => latest_commit ← dt_max commits; Ok (Some latest_commit)
  | None => Ok None
  end.

(** The lines a text file yields when iterated, each with its terminator;
    CR LF and a lone CR are read as LF. *)
Fixpoint readlines (s : string) : list string :=
  let LF := "010"%char in
  let CR := "013"%char in
  let nl := String LF EmptyString in
  match s with
  | EmptyString => []
  | String c s' =>
      if Ascii.eqb c LF then nl :: readlines s'
      else if Ascii.eqb c CR then
        match s' with
        | String c' s'' => if Ascii.eqb c' LF then nl :: readlines s'' else nl :: readlines s'
        | EmptyString => [nl]
        end
      else
        match readlines s' with
        | [] => [String c EmptyString]
        | l :: ls => String c l :: ls
        end
  end.

(** The body of the loop over the lines of the roster. *)
Definition load_line (names_dict : Dict.t string) (line : string) : Dict.t string :=
  let name_parts := Str.split "," (Str.strip line) in
  match name_parts with
  | [github_username; real_name] =>
      Dict.set (Str.lower (Str.strip github_username)) (Str.strip real_name) names_dict
  | _ => names_dict
  end.

(** [load_names_from_file]; the argument is the content of the file, [None]
    when the file does not exist. *)
Definition load_names_from_file (file : option string) : Dict.t string :=
  match file with
  | Some text => fold_left load_line (readlines text) []
  | None => []
  end.

Definition enforce_constraints (w : World) (time_str date_str launched_str : string)
  : result (string * string) :=
  let max_time := "21:00:00" in
  max_date ←
    (if negb (String.eqb launched_str "N/A") then
       match parser_parse w launched_str with
       | Some d => Ok (Some d)
       | None => Raise ParserError
       end
     else Ok None);
  let time_str :=
    if negb (String.eqb time_str "N/A") then
      if Str.gtb time_str max_time then max_time else time_str
    else time_str in
  date_str ←
    (match negb (String.eqb date_str "N/A"), max_date with
     | true, Some max_date =>
         match parser_parse w date_str with
         | Some date_obj => Ok (if dt_gtb date_obj max_date then launched_str else date_str)
         | None => Raise ParserError
         end
     | _, _ => Ok date_str
     end);
  Ok (time_str, date_str).

(** The target files of an entry (the [Target File] column): the wildcard
    branch lists the [.java] and [.js] files of the working copy. *)
Definition select_target_files (disk : Disk) (repo_dir target_file : string)
  : list string :=
  let target_files := Str.split "," target_file in
  let wildcard :=
    match target_files with
    | [] => true
    | first :: _ =>
        let f := Str.lower (Str.strip first) in
        String.eqb f "n/a" || String.eqb f "na"
    end in
  if wildcard then
    flat_map
      (fun files =>
         List.filter (fun file => Str.endswith file ".java" || Str.endswith file ".js") files)
      (os_walk disk repo_dir)
  else
    List.filter (fun file => negb (String.eqb file EmptyString))
      (Str.strip <$> target_files).

(** The body of the loop that accumulates the files of the pull requests by
    author: [set(pr['files'])] starts the set of an author with the files of
    a pull request, [update(pr['files'])] inserts those of another. *)
Definition accumulate_pr (authorized_usernames : gset string)
    (author_pr_files : Dict.t (list string)) (pr : pr_details)
  : result (Dict.t (list string)) :=
  author ← pr_get k_author pr;
  let pr_author := Str.lower author in
  if bool_decide (pr_author ∈ authorized_usernames) then
    files ← pr_get k_files pr;
    match Dict.get pr_author author_pr_files with
    | None => Ok (Dict.set pr_author files author_pr_files)
    | Some seen => Ok (Dict.set pr_author (seen ++ files) author_pr_files)
    end
  else Ok author_pr_files.

(** The body of the loop that looks for the latest commit of an author. *)
Definition latest_commit_step (w : World) (repo_url pr_author : string)
    (latest_commit_time : option datetime) (pr : pr_details)
  : result (option datetime) :=
  author ← pr_get k_author pr;
  if String.eqb (Str.lower author) pr_author then
    id ← pr_get k_id pr;
    commit_time ← get_latest_commit_time w repo_url id;
    match commit_time, latest_commit_time with
    | Some c, Some l => Ok (Some (if dt_gtb c l then c else l))
    | Some c, None => Ok (Some c)
    | None, _ => Ok latest_commit_time
    end
  else Ok latest_commit_time.

(** What the loops of one entry share: the two strings [time_str] and
    [date_str], set once per entry, and the rows appended so far. *)
Record loop_state : Type := mkState {
  st_time_str : string;
  st_date_str : string;
  st_output_data : list row
}.

(** The row of an author with pull requests; the files are joined in the
    order in which the set is iterated. *)
Definition attended_row (w : World) (e : entry) (target_files : list string)
    (launched_str real_name : string) (pr_files : list string)
    (status : string) (score : Z) (time_str date_str : string) : row :=
  {| Repo := sanitize_repo_name (e_repo_url e);
     Name := real_name;
     Assignment := e_assignment e;
     Date := Some date_str;
     Files := match pr_files with
              | [] => "N/A"
              | _ :: _ => Str.join ", " (set_iter w pr_files)
              end;
     Target_Files := Str.join ", " target_files;
     Status := status;
     Score := score;
     Time := time_str;
     Launched := launched_str;
     Type_ := e_type e |}.

(** The body of the loop over [author_pr_files.items()]. *)
Definition attended_step (w : World) (names_dict : Dict.t string) (e : entry)
    (target_files : list string) (launched_str : string) (pr_list : list pr_details)
    (st : loop_state) (item : string * list string) : result loop_state :=
  let '(pr_author, pr_files) := item in
  real_name ← Dict.item pr_author names_dict;
  latest_commit_time ←
    for_each (latest_commit_step w (e_repo_url e) pr_author) pr_list None;
  let '(time_str, date_str) :=
    match latest_commit_time with
    | Some t => (strftime_HMS t, strftime_Ymd t)
    | None => (st_time_str st, st_date_str st)
    end in
  let status := determine_status (set_iter w pr_files) target_files in
  let score := if String.eqb status "Done" then 1%Z else 0%Z in
  '(time_str, date_str) ← enforce_constraints w time_str date_str launched_str;
  Ok {| st_time_str := time_str;
        st_date_str := date_str;
        st_output_data :=
          st_output_data st
          ++ [attended_row w e target_files launched_str real_name pr_files
                status score time_str date_str] |}.

(** The row of a roster member without a pull request. *)
Definition not_done_row (e : entry) (target_files : list string)
    (launched_str real_name : string) : row :=
  {| Repo := sanitize_repo_name (e_repo_url e);
     Name := real_name;
     Assignment := e_assignment e;
     Date := None;
     Files := "N/A";
     Target_Files := Str.join ", " target_files;
     Status := "Not Done";
     Score := 0%Z;
     Time := "N/A";
     Launched := launched_str;
     Type_ := e_type e |}.

(** The rows of the roster members that are not among the attended authors. *)
Definition non_attended_rows (names_dict : Dict.t string) (e : entry)
    (target_files : list string) (launched_str : string)
    (attended_authors : gset string) : list row :=
  flat_map
    (fun '(github_username, real_name) =>
       if bool_decide (github_username ∈ attended_authors) then []
       else [not_done_row e target_files launched_str real_name])
    (Dict.items names_dict).

(** An entry is skipped when its [Repo URL] or its [Assignment] is empty. *)
Definition skipped (e : entry) : bool :=
  String.eqb (e_repo_url e) EmptyString || String.eqb (e_assignment e) EmptyString.

(** The body of the loop over the entries of the feed: the repository is
    cloned unless its directory exists, and the rows of the entry are appended
    to [output_data].  The state of the loop is the disk and the rows. *)
Definition process_entry (w : World) (names_dict : Dict.t string)
    (state : Disk * list row) (e : entry) : result (Disk * list row) :=
  let '(disk, output_data) := state in
  let authorized_usernames : gset string := list_to_set (Dict.keys names_dict) in
  if skipped e then Ok (disk, output_data)
  else
    let repo_dir := sanitize_repo_name (e_repo_url e) in
    disk ← clone_repo w (e_repo_url e) disk;
    let target_files := select_target_files disk repo_dir (e_target_file e) in
    let pr_list := get_pr_list w (e_repo_url e) in
    repo_date ←
      (if negb (String.eqb (e_date e) EmptyString) then
         match parser_parse w (e_date e) with
         | Some d => Ok (Some (astimezone_india w d))
         | None => Raise ParserError
         end
       else Ok None);
    let launched_str :=
      match repo_date with
      | Some d => strftime_Ymd d
      | None => "N/A"
      end in
    author_pr_files ← for_each (accumulate_pr authorized_usernames) pr_list [];
    st ← for_each (attended_step w names_dict e target_files launched_str pr_list)
           (Dict.items author_pr_files)
           {| st_time_str := "N/A"; st_date_str := "N/A"; st_output_data := output_data |};
    let attended_authors : gset string := list_to_set (Dict.keys author_pr_files) in
    Ok (disk,
        st_output_data st
        ++ non_attended_rows names_dict e target_files launched_str attended_authors).

(** [prepare_and_send_data]: [names_file] is the content of the roster file
    and [data_from_sheet] what [fetch_data_from_sheet] returned.  The result
    is the list posted to the sheet; [None] when the feed is empty and the
    function returns before it publishes anything. *)
Definition prepare_and_send_data (w : World) (names_file : option string)
    (data_from_sheet : list entry) : result (option (list row)) :=
  match data_from_sheet with
  | [] => Ok None
  | _ =>
      let names_dict := load_names_from_file names_file in
      state ← for_each (process_entry w names_dict) data_from_sheet (working_copies w, []);
      Ok (Some state.2)
  end.

(** ** A concrete world *)

(** [dateutil.parser.parse] on the strings [strftime('%Y-%m-%d')] writes:
    four digits, a dash, two digits, a dash, two digits, read as midnight of
    that day.  Any other string is rejected by this instance (the library
    itself reads many more formats); it serves the concrete runs below. *)
Definition digit_val (c : ascii) : option nat :=
  let n := Str.ord c in
  if ((48 <=? n) && (n <=? 57))%nat then Some (n - 48) else None.

Definition number2 (a b : ascii) : option nat :=
  x ← digit_val a; y ← digit_val b; Some (10 * x + y).

Definition parse_ymd (s : string) : option datetime :=
  match s with
  | String y1 (String y2 (String y3 (String y4 (String "-"
      (String m1 (String m2 (String "-" (String d1 (String d2 EmptyString))))))))) =>
      yh ← number2 y1 y2; yl ← number2 y3 y4; m ← number2 m1 m2; d ← number2 d1 d2;
      if ((1 <=? m) && (m <=? 12) && (1 <=? d) && (d <=? 31) && (1 <=? 100 * yh + yl))%nat
      then Some (mkDatetime (100 * yh + yl) m d 0 0 0 0)
      else None
  | _ => None
  end.

Module Demo.

(** The scenario of the report: a roster of two, one pull request by the
    first member, pushed after the cutoff time and after the launch.  No
    working copy is on disk, and [git clone] brings three files in two
    directories.  The process iterates a set in the order of its strings. *)
Definition alice_pr : pull_request :=
  mkPR 7 "Alice" ["Main.java"] (mkDatetime 2024 1 9 18 0 0 0).

Definition tree : list (list string) := [["Main.java"; "README.md"]; ["app.js"]].

Definition w : World :=
  {| get_pr_list := fun _ => [Some alice_pr];
     gh_pr_commits := fun _ id =>
       if (id =? 7)%Z then Some [mkDatetime 2024 1 12 22 15 0 0] else None;
     git_clone := fun _ => GitCloned tree;
     working_copies := ∅;
     parser_parse := parse_ymd;
     astimezone_india := fun d => d;
     set_iter := fun l => elements (list_to_set l : gset string);
     set_iter_perm := fun l => Permutation_refl _ |}.

(** The disk once [hw1] is cloned. *)
Definition disk : Disk := {[ "hw1" := tree ]}.

Definition roster : string :=
  "alice,Alice A" ++ String "010" "bob,Bob B" ++ String "010" EmptyString.

Definition hw1 : entry :=
  mkEntry "https://github.com/org/hw1/" "HW1" "Raw Code" "Main.java" "2024-01-10".

Definition feed : list entry := [hw1].

(** The same repository where the second member has an older pull request,
    and the commits of that pull request cannot be read. *)
Definition bob_pr : pull_request :=
  mkPR 8 "bob" ["Main.java"] (mkDatetime 2024 1 9 17 0 0 0).

Definition w2 : World :=
  {| get_pr_list := fun _ => [Some alice_pr; Some bob_pr];
     gh_pr_commits := gh_pr_commits w;
     git_clone := git_clone w;
     working_copies := working_copies w;
     parser_parse := parse_ymd;
     astimezone_india := fun d => d;
     set_iter := set_iter w;
     set_iter_perm := set_iter_perm w |}.

(** The first world with an early commit instead: nothing is clamped. *)
Definition w3 : World :=
  {| get_pr_list := get_pr_list w;
     gh_pr_commits := fun _ _ => Some [mkDatetime 2024 1 9 18 0 0 0];
     git_clone := git_clone w;
     working_copies := working_copies w;
     parser_parse := parser_parse w;
     astimezone_india := astimezone_india w;
     set_iter := set_iter w;
     set_iter_perm := set_iter_perm w |}.

(** A world of two repositories of the same name, of two owners, with
    different files. *)
Definition w4 : World :=
  {| get_pr_list := get_pr_list w;
     gh_pr_commits := gh_pr_commits w;
     git_clone := fun repo_url =>
       if String.eqb repo_url "https://github.com/alice/hw1"
       then GitCloned [["Main.java"]] else GitCloned [["Other.java"]];
     working_copies := ∅;
     parser_parse := parser_parse w;
     astimezone_india := astimezone_india w;
     set_iter := set_iter w;
     set_iter_perm := set_iter_perm w |}.

(** Two entries for the repositories of the same name of two owners, with
    the wildcard for target files. *)
Definition hw_alice : entry :=
  mkEntry "https://github.com/alice/hw1" "HW1" "Raw Code" "N/A" EmptyString.

Definition hw_bob : entry :=
  mkEntry "https://github.com/bob/hw1" "HW1" "Raw Code" "N/A" EmptyString.


(** An entry without target file, and one without repository. *)
Definition hw2 : entry :=
  mkEntry "https://github.com/org/hw1/" "HW2" "Raw Code" EmptyString "2024-01-10".

Definition no_repo : entry :=
  mkEntry EmptyString "HW3" "Raw Code" "Main.java" "2024-01-10".

End Demo.

(** ** Vocabulary of the properties *)

(** Every character of a string passes a test. *)
Fixpoint string_forallb (p : ascii -> bool) (s : string) : bool :=
  match s with
  | EmptyString => true
  | String c s' => p c && string_forallb p s'
  end.

(** A change of letter case, character by character: a character stays, or a
    capital becomes its small letter, or the other way round. *)
Inductive recase_char : ascii -> ascii -> Prop :=
| recase_same c : recase_char c c
| recase_to_lower c : recase_char c (Str.lower_char c)
| recase_to_upper c : recase_char (Str.lower_char c) c.

Inductive recase : string -> string -> Prop :=
| recase_empty : recase EmptyString EmptyString
| recase_String c c' s s' :
    recase_char c c' -> recase s s' -> recase (String c s) (String c' s').






(** The set the status depends on. *)
Definition lowered (l : list string) : gset string :=
  set_map Str.lower (list_to_set l : gset string).

(** A line of the roster is kept when it splits into exactly two fields. *)
Definition two_fields (line : string) : bool :=
  Nat.eqb (length (Str.split "," (Str.strip line))) 2.

(** The handle and the display name a kept line stands for. *)
Definition roster_pair (line : string) : string * string :=
  let name_parts := Str.split "," (Str.strip line) in
  (Str.lower (Str.strip (nth 0 name_parts EmptyString)),
   Str.strip (nth 1 name_parts EmptyString)).

Definition kept_pairs (text : string) : list (string * string) :=
  roster_pair <$> List.filter two_fields (readlines text).

(** The display name of the last pair with handle [h]. *)
Definition last_binding (h : string) (pairs : list (string * string)) : option string :=
  snd <$> last (filter (fun p => p.1 = h) pairs).

(** The time the enforcer returns. *)
Definition clamped_time (time_str : string) : string :=
  if String.eqb time_str "N/A" then time_str
  else if Str.gtb time_str "21:00:00" then "21:00:00" else time_str.

(** The target files the pipeline computes for an entry, on the disk
    [clone_repo] has left, and its launch date. *)
Definition entry_target_files (disk : Disk) (e : entry) : list string :=
  select_target_files disk (sanitize_repo_name (e_repo_url e)) (e_target_file e).

Definition entry_launched_str (w : World) (e : entry) : string :=
  if String.eqb (e_date e) EmptyString then "N/A"
  else match parser_parse w (e_date e) with
       | Some d => strftime_Ymd (astimezone_india w d)
       | None => "N/A"
       end.

(** The disk after [clone_repo]; the disk as it was when [git] is missing. *)
Definition cloned_disk (w : World) (disk : Disk) (repo_url : string) : Disk :=
  match clone_repo w repo_url disk with
  | Ok disk' => disk'
  | Raise _ => disk
  end.

(** The processed entries of a feed, in the order of the feed, each with the
    disk on which its target files are looked up: the disk the entries before
    it have left, after its own [clone_repo]. *)
Fixpoint on_disk (w : World) (disk : Disk) (feed : list entry) : list (Disk * entry) :=
  match feed with
  | [] => []
  | e :: feed' =>
      if skipped e then on_disk w disk feed'
      else
        let disk' := cloned_disk w disk (e_repo_url e) in
        (disk', e) :: on_disk w disk' feed'
  end.

(** The submissions of a handle among the pull requests of a repository, the
    union of their files, and the sequence in which these are inserted. *)
Definition submissions (h : string) (prs : list pull_request) : list pull_request :=
  filter (fun p => Str.lower (k_author p) = h) prs.

Definition merged_files (h : string) (prs : list pull_request) : gset string :=
  ⋃ ((fun p => list_to_set (k_files p)) <$> submissions h prs).

Definition inserted_files (h : string) (prs : list pull_request) : list string :=
  p ← submissions h prs; k_files p.

(** The score that goes with a status. *)
Definition score_of (status : string) : Z :=
  if decide (status = "Done") then 1%Z else 0%Z.

(** The row the loop appends for the files [item.2] of the author [item.1]. *)
Definition attended_row_of (w : World) (names_dict : Dict.t string) (e : entry)
    (target_files : list string) (launched_str : string)
    (item : string * list string) (r : row) : Prop :=
  exists real_name time_str date_str,
    Dict.get item.1 names_dict = Some real_name /\
    r = attended_row w e target_files launched_str real_name item.2
          (determine_status (set_iter w item.2) target_files)
          (score_of (determine_status (set_iter w item.2) target_files))
          time_str date_str.

(** [r] is a row of the entry [e] for the member [real_name], whatever it
    reports: the fields that come from the entry. *)
Definition row_of_entry (w : World) (disk : Disk) (e : entry) (real_name : string)
    (r : row) : Prop :=
  Repo r = sanitize_repo_name (e_repo_url e) /\
  Name r = real_name /\
  Assignment r = e_assignment e /\
  Target_Files r = Str.join ", " (entry_target_files disk e) /\
  Launched r = entry_launched_str w e /\
  Type_ r = e_type e.

(** [r] reports Not Done, without files, date or time. *)
Definition reports_not_done (r : row) : Prop :=
  Status r = "Not Done" /\ Score r = 0%Z /\ Date r = None /\
  Files r = "N/A" /\ Time r = "N/A".

(** [r] reports the files [pr_files], in some order, with the status they
    get against the target files and the score of that status, at some
    date. *)
Definition reports_files (pr_files : gset string) (target_files : list string)
    (r : row) : Prop :=
  Status r = determine_status (elements pr_files) target_files /\
  Score r = score_of (Status r) /\
  is_Some (Date r) /\
  exists order,
    order ≡ₚ elements pr_files /\
    Files r = match order with [] => "N/A" | _ :: _ => Str.join ", " order end.

(** [r] is the row of the roster handle [h] for the entry [e]: the Not Done
    row when [h] has no submission, else the row of the merged files of its
    submissions. *)
Definition row_for (w : World) (disk : Disk) (names_dict : Dict.t string) (e : entry)
    (h : string) (r : row) : Prop :=
  exists real_name prs,
    Dict.get h names_dict = Some real_name /\
    get_pr_list w (e_repo_url e) = Some <$> prs /\
    row_of_entry w disk e real_name r /\
    if decide (submissions h prs = []) then reports_not_done r
    else reports_files (merged_files h prs) (entry_target_files disk e) r.

(** The rows of one entry: one row for each handle of the roster. *)
Definition rows_of_entry (w : World) (names_dict : Dict.t string)
    (de : Disk * entry) (chunk : list row) : Prop :=
  exists handles,
    handles ≡ₚ Dict.keys names_dict /\
    Forall2 (row_for w de.1 names_dict de.2) handles chunk.

(** A row whose score goes with its status. *)
Definition row_score_ok (r : row) : Prop :=
  (Status r = "Done" /\ Score r = 1%Z) \/ (Status r = "Not Done" /\ Score r = 0%Z).

(** An entry the pipeline processes. *)
Definition processed (e : entry) : Prop := skipped e = false.

#[global] Instance processed_dec e : Decision (processed e).
Proof. unfold processed. apply _. Defined.

(** A row without its time and its date. *)
Definition graded (r : row) : list string * Z :=
  ([Repo r; Name r; Assignment r; Files r; Target_Files r; Status r; Launched r; Type_ r],
   Score r).

(** Two worlds that differ at most in the commit times [gh] reports. *)
Definition same_but_commits (w1 w2 : World) : Prop :=
  (forall url, get_pr_list w1 url = get_pr_list w2 url) /\
  (forall url, git_clone w1 url = git_clone w2 url) /\
  working_copies w1 = working_copies w2 /\
  (forall s, parser_parse w1 s = parser_parse w2 s) /\
  (forall d, astimezone_india w1 d = astimezone_india w2 d) /\
  (forall l, set_iter w1 l = set_iter w2 l).

(** The files of the working copy the wildcard stands for. *)
Definition wildcard_files (disk : Disk) (repo_dir : string) : list string :=
  files ← os_walk disk repo_dir;
  List.filter (fun file => Str.endswith file ".java" || Str.endswith file ".js") files.

(** The commit time a query for a pull request finds, when it finds one. *)
Definition pr_commit_time (w : World) (repo_url : string) (p : pull_request)
  : option datetime :=
  match gh_pr_commits w repo_url (k_id p) with
  | Some (c :: cs) => Some (dt_max_from c cs)
  | _ => None
  end.

(** The commit times found for the submissions of a handle. *)
Definition found_times (w : World) (repo_url h : string) (prs : list pull_request)
  : list datetime :=
  omap (pr_commit_time w repo_url) (submissions h prs).

(** The latest of a list of times, if any. *)
Definition latest_of (times : list datetime) : option datetime :=
  match times with
  | [] => None
  | t :: ts => Some (dt_max_from t ts)
  end.

(** A date string the enforcer accepts. *)
Definition date_ok (w : World) (s : string) : Prop :=
  s = "N/A" \/ is_Some (parser_parse w s).

(** A world in which no call of the pipeline raises: [git] is installed,
    [gh pr view] never fails on a pull request [get_pr_list] has listed, no
    pull request is without commit, the dates of the feed can be parsed, and
    the parser reads the dates [strftime] writes for the commits and for the
    launch dates of the feed. *)
Record well_behaved (w : World) (feed : list entry) : Prop := {
  wb_git : forall e, e ∈ feed -> processed e ->
    git_clone w (e_repo_url e) ≠ GitMissing;
  wb_pr_list : forall e, e ∈ feed -> processed e ->
    Forall is_Some (get_pr_list w (e_repo_url e));
  wb_feed_dates : forall e, e ∈ feed -> processed e ->
    e_date e = EmptyString \/ is_Some (parser_parse w (e_date e));
  wb_commits : forall url id, gh_pr_commits w url id ≠ Some [];
  wb_commit_dates : forall url id cs c,
    gh_pr_commits w url id = Some cs -> c ∈ cs ->
    is_Some (parser_parse w (strftime_Ymd c));
  wb_launch_dates : forall e d, e ∈ feed -> processed e ->
    parser_parse w (e_date e) = Some d ->
    is_Some (parser_parse w (strftime_Ymd (astimezone_india w d)))
}.

(** A string without slash, as a directory name asks. *)
Definition no_slash (s : string) : Prop :=
  string_forallb (fun c => negb (Ascii.eqb "/" c)) s = true.

(** A string fit for a directory name: none of the characters
    [sanitize_repo_name] replaces. *)
Definition valid_dir_name (s : string) : Prop :=
  string_forallb (fun c => negb (invalid_dir_char c)) s = true.

(** ** The adapters of the [gh] command line and of [git] *)

Module Adapter.

(** An element of what [gh pr list --json number,author,createdAt] prints;
    [createdAt] is the parsed date. *)
Record pr_summary : Type := mkSummary {
  number : Z;
  login : string;
  createdAt : datetime
}.

(** What [gh pr view --json title,author,files,createdAt] prints. *)
Record pr_view : Type := mkView {
  title : string;
  author_login : string;
  paths : list string;
  view_createdAt : datetime
}.

(** The command line of one run; [None] is a [CalledProcessError]. *)
Record Gh : Type := mkGh {
  (** the [gh] executable is found; [subprocess.run] raises
      [FileNotFoundError] when it is not *)
  installed : bool;
  (** [gh --version] succeeds *)
  version_ok : bool;
  (** [gh pr list --repo repo_url] *)
  pr_list_cmd : string -> option (list pr_summary);
  (** [gh pr view --repo repo_url pr_id] *)
  pr_view_cmd : string -> Z -> option pr_view;
  (** [gh repo view full_name --json createdAt] *)
  repo_createdAt_cmd : string -> option datetime;
  (** [gh repo view full_name --json defaultBranchRef] *)
  default_branch_cmd : string -> option string;
  (** [gh api repos/full_name/commits?sha=branch&per_page=1]: the dates of
      the commits of the answer *)
  commits_cmd : string -> string -> option (list datetime);
  (** [datetime.now()] *)
  now : datetime
}.

(** Both [FileNotFoundError] and [CalledProcessError] are caught. *)
Definition check_gh_command (gh : Gh) : bool := installed gh && version_ok gh.

(** [os.path.basename], as [posixpath] has it: what follows the last slash. *)
Definition basename (path : string) : string :=
  List.last (Str.split "/" path) EmptyString.

Definition get_pr_details (gh : Gh) (repo_url : string) (pr_id : Z) : pr_details :=
  if negb (check_gh_command gh) then None
  else
    match pr_view_cmd gh repo_url pr_id with
    | Some v =>
        Some {| k_id := pr_id;
                k_author := author_login v;
                k_files := basename <$> paths v;
                k_createdAt := view_createdAt v |}
    | None => None
    end.

(** [pr_list.sort(key=..., reverse=True)]: the latest first, pull requests of
    the same date in the order they had. *)
Fixpoint insert_desc (x : pr_summary) (l : list pr_summary) : list pr_summary :=
  match l with
  | [] => [x]
  | y :: l' =>
      if dt_gtb (createdAt y) (createdAt x) then y :: insert_desc x l' else x :: l
  end.

Definition sort_desc (l : list pr_summary) : list pr_summary :=
  foldr insert_desc [] l.

(** The body of the loop that fills [pr_dict]. *)
Definition group_step (pr_dict : Dict.t (list Z * datetime)) (pr : pr_summary)
  : Dict.t (list Z * datetime) :=
  let pr_id := number pr in
  let pr_author := login pr in
  let pr_created_at := createdAt pr in
  match Dict.get pr_author pr_dict with
  | None => Dict.set pr_author ([pr_id], pr_created_at) pr_dict
  | Some (ids, created) =>
      Dict.set pr_author
        (ids ++ [pr_id], if dt_gtb pr_created_at created then pr_created_at else created)
        pr_dict
  end.

Definition get_pr_list (gh : Gh) (repo_url : string) : list pr_details :=
  if negb (check_gh_command gh) then []
  else
    match pr_list_cmd gh repo_url with
    | Some pr_list =>
        let pr_list := sort_desc pr_list in
        let pr_dict := fold_left group_step pr_list [] in
        flat_map (fun '(_, (ids, _)) => get_pr_details gh repo_url <$> ids)
          (Dict.items pr_dict)
    | None => []
    end.

(** [l[-1]] and [l[-2]] *)
Definition from_end {A : Type} (l : list A) (k : nat) : option A := reverse l !! k.

(** There is no [check_gh_command] here, and [CalledProcessError] alone is
    caught: without [gh] the call of [subprocess.run] raises. *)
Definition get_repo_created_date (gh : Gh) (repo_url : string) : result datetime :=
  let parts := Str.split "/" (Str.rstrip_slash repo_url) in
  match from_end parts 0, from_end parts 1 with
  | Some repo_name, Some repo_owner =>
      let repo_full_name := repo_owner +:+ "/" +:+ repo_name in
      if negb (installed gh) then Raise FileNotFoundError
      else
        match repo_createdAt_cmd gh repo_full_name with
        | Some repo_created_at => Ok repo_created_at
        | None => Ok (now gh)
        end
  | _, _ => Raise IndexError
  end.

(** The [IndexError] of [split('/')[-2]] is caught, but its handler prints
    [repo_full_name], which is not bound yet. *)
Definition get_repo_latest_commit_date (gh : Gh) (repo_url : string)
  : result (option datetime) :=
  if negb (check_gh_command gh) then Ok None
  else
    let parts := Str.split "/" (Str.rstrip_slash repo_url) in
    match from_end parts 1, from_end parts 0 with
    | Some repo_owner, Some repo_name =>
        let repo_full_name := repo_owner +:+ "/" +:+ repo_name in
        match default_branch_cmd gh repo_full_name with
        | Some branch_name =>
            match commits_cmd gh repo_full_name branch_name with
            | Some (latest_commit_date :: _) => Ok (Some latest_commit_date)
            | Some [] => Ok None
            | None => Ok None
            end
        | None => Ok None
        end
    | _, _ => Raise UnboundLocalError
    end.

End Adapter.

(** The world in which the pull requests are those [Adapter.get_pr_list]
    returns. *)
Definition with_gh (gh : Adapter.Gh) (w : World) : World :=
  {| get_pr_list := Adapter.get_pr_list gh;
     gh_pr_commits := gh_pr_commits w;
     git_clone := git_clone w;
     working_copies := working_copies w;
     parser_parse := parser_parse w;
     astimezone_india := astimezone_india w;
     set_iter := set_iter w;
     set_iter_perm := set_iter_perm w |}.

(** The numbers [pr_dict] holds, author after author. *)
Definition grouped_ids (pr_dict : Dict.t (list Z * datetime)) : list Z :=
  flat_map (fun '(_, (ids, _)) => ids) (Dict.items pr_dict).

(** A command line for the examples: three pull requests, two of one author
    under two spellings of the login; [gh_broken] cannot show the third, and
    [gh_down] is not installed. *)
Module DemoGh.

Definition listed : list Adapter.pr_summary :=
  [Adapter.mkSummary 7 "Alice" (mkDatetime 2024 1 9 18 0 0 0);
   Adapter.mkSummary 8 "bob" (mkDatetime 2024 1 9 19 0 0 0);
   Adapter.mkSummary 9 "Alice" (mkDatetime 2024 1 10 9 30 0 0)].

Definition view (pr_id : Z) : option Adapter.pr_view :=
  if (pr_id =? 7)%Z then
    Some (Adapter.mkView "HW1" "Alice" ["src/main/Main.java"] (mkDatetime 2024 1 9 18 0 0 0))
  else if (pr_id =? 8)%Z then
    Some (Adapter.mkView "HW1 by bob" "bob" ["Main.java"; "docs/README.md"]
            (mkDatetime 2024 1 9 19 0 0 0))
  else if (pr_id =? 9)%Z then
    Some (Adapter.mkView "HW1 again" "Alice" ["src/main/Util.java"]
            (mkDatetime 2024 1 10 9 30 0 0))
  else None.

Definition gh : Adapter.Gh :=
  {| Adapter.installed := true;
     Adapter.version_ok := true;
     Adapter.pr_list_cmd := fun _ => Some listed;
     Adapter.pr_view_cmd := fun _ => view;
     Adapter.repo_createdAt_cmd := fun _ => Some (mkDatetime 2024 1 1 10 0 0 0);
     Adapter.default_branch_cmd := fun _ => Some "main";
     Adapter.commits_cmd := fun _ _ => Some [mkDatetime 2024 1 12 22 15 0 0];
     Adapter.now := mkDatetime 2024 2 1 0 0 0 0 |}.

Definition gh_broken : Adapter.Gh :=
  {| Adapter.installed := true;
     Adapter.version_ok := true;
     Adapter.pr_list_cmd := fun _ => Some listed;
     Adapter.pr_view_cmd := fun _ pr_id => if (pr_id =? 9)%Z then None else view pr_id;
     Adapter.repo_createdAt_cmd := Adapter.repo_createdAt_cmd gh;
     Adapter.default_branch_cmd := Adapter.default_branch_cmd gh;
     Adapter.commits_cmd := Adapter.commits_cmd gh;
     Adapter.now := Adapter.now gh |}.

Definition gh_down : Adapter.Gh :=
  {| Adapter.installed := false;
     Adapter.version_ok := false;
     Adapter.pr_list_cmd := Adapter.pr_list_cmd gh;
     Adapter.pr_view_cmd := Adapter.pr_view_cmd gh;
     Adapter.repo_createdAt_cmd := Adapter.repo_createdAt_cmd gh;
     Adapter.default_branch_cmd := Adapter.default_branch_cmd gh;
     Adapter.commits_cmd := Adapter.commits_cmd gh;
     Adapter.now := Adapter.now gh |}.

Definition url : string := "https://github.com/org/hw1/".

(** An entry with a date that is no date. *)
Definition no_date : entry :=
  mkEntry "https://github.com/org/hw1/" "HW1" "Raw Code" "Main.java" "tomorrow".

End DemoGh.

(** The pull requests of the roster: an element is kept when it is an empty
    dictionary or when its author, in lower case, is a handle of the roster. *)
Definition of_roster (names_dict : Dict.t string) (pr : pr_details) : bool :=
  match pr with
  | Some p => bool_decide (Str.lower (k_author p) ∈ Dict.keys names_dict)
  | None => true
  end.

(** The world where [get_pr_list] has lost the pull requests of the authors
    that are not in the roster. *)
Definition without_strangers (names_dict : Dict.t string) (w : World) : World :=
  {| get_pr_list := fun repo_url => List.filter (of_roster names_dict) (get_pr_list w repo_url);
     gh_pr_commits := gh_pr_commits w;
     git_clone := git_clone w;
     working_copies := working_copies w;
     parser_parse := parser_parse w;
     astimezone_india := astimezone_india w;
     set_iter := set_iter w;
     set_iter_perm := set_iter_perm w |}.

(** A string that is empty or starts outside of a class of characters. *)
Definition head_outside (p : ascii -> bool) (s : string) : Prop :=
  match s with
  | EmptyString => True
  | String c _ => p c = false
  end.

(** A string without comma. *)
Definition no_comma (s : string) : Prop :=
  string_forallb (fun c => negb (Ascii.eqb "," c)) s = true.

(** The column of the target files stands for the wildcard: its first item,
    stripped and in lower case, is [n/a] or [na]. *)
Definition wildcard_column (target_file : string) : bool :=
  let first := hd EmptyString (Str.split "," target_file) in
  let f := Str.lower (Str.strip first) in
  String.eqb f "n/a" || String.eqb f "na".








(** The pull requests of one login, in the order [get_pr_list] sorted them. *)
Definition by_author (a : string) (listed : list Adapter.pr_summary)
  : list Adapter.pr_summary :=
  filter (fun pr => Adapter.login pr = a) (Adapter.sort_desc listed).

(** No pull request of the list is later than one before it. *)
Fixpoint newest_first (l : list Adapter.pr_summary) : Prop :=
  match l with
  | [] => True
  | x :: l' =>
      Forall (fun y => dt_gtb (Adapter.createdAt y) (Adapter.createdAt x) = false) l'
      /\ newest_first l'
  end.

(** What [pr_dict] holds once the loop has gone through [l]: a key for every
    login of [l], and under it the numbers of its pull requests, in the order
    of [l]. *)
Definition groups (d : Dict.t (list Z * datetime)) (l : list Adapter.pr_summary) : Prop :=
  NoDup (Dict.keys d) /\
  (forall a, a ∈ Dict.keys d <-> a ∈ Adapter.login <$> l) /\
  Forall (fun kv => fst (snd kv)
                    = Adapter.number <$> filter (fun pr => Adapter.login pr = fst kv) l) d.

(** * Properties *)

(** ** The functions on concrete inputs *)

Example split_examples :
  Str.split "," "a,,b" = ["a"; EmptyString; "b"] /\ Str.split "," EmptyString = [EmptyString] /\
  Str.split "," "alice" = ["alice"].
Proof. repeat split. Qed.

Example strip_examples :
  Str.strip (String "009" " a b  " ++ String "013" (String "010" EmptyString)) = "a b" /\
  Str.strip "   " = EmptyString /\ Str.rstrip_slash "https://host/org/repo//" = "https://host/org/repo".
Proof. repeat split. Qed.

Example lower_examples :
  Str.lower "Main.JAVA" = "main.java" /\ Str.lower "n/a" = "n/a".
Proof. repeat split. Qed.

Example readlines_examples :
  readlines ("a,b" ++ String "013" (String "010" "c,d") ++ String "010" EmptyString)%string
  = [("a,b" ++ String "010" EmptyString)%string; ("c,d" ++ String "010" EmptyString)%string] /\
  readlines EmptyString = [] /\ readlines "no newline" = ["no newline"].
Proof. repeat split. Qed.

Example sanitize_repo_name_examples :
  sanitize_repo_name "https://github.com/org/hw1/" = "hw1" /\
  sanitize_repo_name "https://github.com/org/a:b?c" = "a_b_c".
Proof. repeat split. Qed.

Example strftime_examples :
  strftime_HMS (mkDatetime 2024 1 9 8 5 0 0) = "08:05:00" /\
  strftime_Ymd (mkDatetime 2024 1 9 8 5 0 0) = "2024-01-09" /\
  parse_ymd "2024-01-09" = Some (mkDatetime 2024 1 9 0 0 0 0) /\
  parse_ymd "N/A" = None.
Proof. repeat split. Qed.

Example load_names_example :
  load_names_from_file
    (Some (" Alice , A. Smith" ++ String "010" "not a roster line" ++ String "010" "bob,Bob"
           ++ String "010" "x,y,z" ++ String "010" "ALICE,Alice Smith" ++ String "010" EmptyString)%string)
  = [("alice", "Alice Smith"); ("bob", "Bob")].
Proof. reflexivity. Qed.

(** The scenario of the roster of two with one submission: the author of the
    pull request is Done with score 1, the other member Not Done with score 0
    and no date. *)
Example non_participant_scenario :
  prepare_and_send_data Demo.w (Some Demo.roster) Demo.feed
  = Ok (Some
      [ {| Repo := "hw1"; Name := "Alice A"; Assignment := "HW1";
           Date := Some "2024-01-10"; Files := "Main.java";
           Target_Files := "Main.java"; Status := "Done"; Score := 1;
           Time := "21:00:00"; Launched := "2024-01-10"; Type_ := "Raw Code" |};
        {| Repo := "hw1"; Name := "Bob B"; Assignment := "HW1";
           Date := None; Files := "N/A";
           Target_Files := "Main.java"; Status := "Not Done"; Score := 0;
           Time := "N/A"; Launched := "2024-01-10"; Type_ := "Raw Code" |} ]).
Proof. vm_compute. reflexivity. Qed.

(** ** Characters and strings *)

Lemma lower_char_idemp c : Str.lower_char (Str.lower_char c) = Str.lower_char c.
Proof. destruct c as [[] [] [] [] [] [] [] []]; vm_compute; reflexivity. Qed.


Lemma lower_idemp s : Str.lower (Str.lower s) = Str.lower s.
Proof. induction s as [|c s IH]; simpl; [done|]. by rewrite lower_char_idemp, IH. Qed.

Lemma recase_to_lower_string s : recase s (Str.lower s).
Proof. induction s; simpl; constructor; [constructor | done]. Qed.

(** ** [determine_status] *)

Lemma elem_of_lowered x l : x ∈ lowered l <-> exists f, f ∈ l /\ x = Str.lower f.
Proof.
  unfold lowered. rewrite elem_of_map. split.
  - intros (f & -> & Hf). exists f. by rewrite elem_of_list_to_set in Hf.
  - intros (f & Hf & ->). exists f. by rewrite elem_of_list_to_set.
Qed.

Lemma determine_status_cases pr_files target_files :
  determine_status pr_files target_files
  = if bool_decide (lowered target_files ⊆ lowered pr_files) then "Done" else "Not Done".
Proof. unfold determine_status, lowered. by case bool_decide. Qed.

Lemma lowered_subseteq pr_files target_files :
  lowered target_files ⊆ lowered pr_files
  <-> forall t, t ∈ target_files -> exists f, f ∈ pr_files /\ Str.lower f = Str.lower t.
Proof.
  split.
  - intros Hsub t Ht.
    destruct (proj1 (elem_of_lowered (Str.lower t) pr_files)) as (f & Hf & Heq).
    { apply Hsub, elem_of_lowered. by exists t. }
    by exists f.
  - intros Hall x (t & Ht & ->)%elem_of_lowered.
    destruct (Hall t Ht) as (f & Hf & Heq).
    apply elem_of_lowered. by exists f.
Qed.









(** ** Exceptions and loops *)

Lemma bind_Ok {A B : Type} (m : result A) (k : A -> result B) (b : B) :
  m ≫= k = Ok b <-> exists a, m = Ok a /\ k a = Ok b.
Proof.
  destruct m as [a|e]; simpl; split.
  - intros H. by exists a.
  - by intros (a' & [= ->] & H).
  - done.
  - by intros (a' & [=] & _).
Qed.

Lemma for_each_app {A S : Type} (body : S -> A -> result S) (l1 l2 : list A) (s : S) :
  for_each body (l1 ++ l2) s = for_each body l1 s ≫= for_each body l2.
Proof.
  revert s. induction l1 as [|a l1 IH]; intros s; simpl; [done|].
  destruct (body s a) as [s'|e]; simpl; [apply IH | done].
Qed.

Lemma for_each_cons {A S : Type} (body : S -> A -> result S) a l s :
  for_each body (a :: l) s = body s a ≫= for_each body l.
Proof. done. Qed.

(** ** Dictionaries *)

Section dict.
Context {V : Type}.
Implicit Types (d : Dict.t V) (k : string) (v : V).

Lemma dict_get_set_eq k v d : Dict.get k (Dict.set k v d) = Some v.
Proof.
  induction d as [|[k' v'] d IH]; simpl.
  - by rewrite String.eqb_refl.
  - destruct (String.eqb_spec k' k) as [->|Hne]; simpl.
    + by rewrite String.eqb_refl.
    + by destruct (String.eqb_spec k' k).
Qed.

Lemma dict_get_set_ne k k' v d : k ≠ k' -> Dict.get k' (Dict.set k v d) = Dict.get k' d.
Proof.
  intros Hne. induction d as [|[k1 v1] d IH]; simpl.
  - by destruct (String.eqb_spec k k').
  - destruct (String.eqb_spec k1 k) as [->|Hne1]; simpl.
    + by destruct (String.eqb_spec k k').
    + by rewrite IH.
Qed.

Lemma dict_get_Some_keys k d : is_Some (Dict.get k d) <-> k ∈ Dict.keys d.
Proof.
  unfold Dict.keys. induction d as [|[k1 v1] d IH]; simpl.
  - split; [by intros [? ?] | by intros ?%elem_of_nil].
  - rewrite elem_of_cons. destruct (String.eqb_spec k1 k) as [->|Hne]; simpl.
    + split; [by left | by eexists].
    + rewrite IH. split; [by right | by intros [->|?]].
Qed.

Lemma dict_get_None_keys k d : Dict.get k d = None <-> k ∉ Dict.keys d.
Proof. rewrite <- dict_get_Some_keys, eq_None_not_Some. done. Qed.

(** Setting a key keeps the keys in place; a new key goes last. *)
Lemma dict_keys_set k v d :
  Dict.keys (Dict.set k v d)
  = if Dict.mem k d then Dict.keys d else Dict.keys d ++ [k].
Proof.
  unfold Dict.mem, Dict.keys. induction d as [|[k1 v1] d IH]; [done|].
  cbn [Dict.set Dict.get].
  destruct (String.eqb_spec k1 k) as [->|Hne]; [done|].
  rewrite !fmap_cons, IH. by destruct (Dict.get k d).
Qed.

Lemma dict_keys_set_NoDup k v d : NoDup (Dict.keys d) -> NoDup (Dict.keys (Dict.set k v d)).
Proof.
  intros Hd. rewrite dict_keys_set. unfold Dict.mem.
  destruct (Dict.get k d) eqn:Hk; [done|].
  apply NoDup_app. split; [done|]. split; [|apply NoDup_singleton].
  intros x Hx ->%list_elem_of_singleton. by apply dict_get_None_keys in Hk.
Qed.

Lemma dict_item_Ok k d v : Dict.item k d = Ok v <-> Dict.get k d = Some v.
Proof. unfold Dict.item. destruct (Dict.get k d); split; congruence. Qed.

End dict.

(** ** The roster: [load_names_from_file] *)

Lemma load_line_cases d line :
  load_line d line
  = if two_fields line then Dict.set (roster_pair line).1 (roster_pair line).2 d else d.
Proof.
  unfold load_line, two_fields, roster_pair.
  by destruct (Str.split "," (Str.strip line)) as [|a [|b [|c l]]].
Qed.

Lemma load_lines_fold lines d :
  fold_left load_line lines d
  = fold_left (fun d p => Dict.set p.1 p.2 d) (roster_pair <$> List.filter two_fields lines) d.
Proof.
  revert d. induction lines as [|line lines IH]; intros d; simpl; [done|].
  rewrite load_line_cases. destruct (two_fields line); simpl; apply IH.
Qed.

Lemma last_binding_snoc h pairs p :
  last_binding h (pairs ++ [p])
  = if decide (p.1 = h) then Some p.2 else last_binding h pairs.
Proof.
  unfold last_binding. rewrite filter_app. destruct (decide (p.1 = h)) as [Heq|Hne].
  - rewrite filter_cons_True by done. by rewrite filter_nil, last_snoc.
  - rewrite filter_cons_False by done. by rewrite filter_nil, app_nil_r.
Qed.

Lemma last_binding_is_Some h pairs : is_Some (last_binding h pairs) <-> h ∈ pairs.*1.
Proof.
  unfold last_binding. rewrite fmap_is_Some, last_is_Some, list_elem_of_fmap. split.
  - intros Hne. destruct (filter (λ p, p.1 = h) pairs) as [|p l] eqn:Hf; [done|].
    assert (Hp : p ∈ filter (λ p, p.1 = h) pairs) by (rewrite Hf; left).
    apply list_elem_of_filter in Hp as [Hp1 Hp2]. by exists p.
  - intros (p & -> & Hp) Hnil.
    by apply (filter_nil_not_elem_of _ _ p Hnil).
Qed.

Lemma fold_set_get (pairs : list (string * string)) (d : Dict.t string) h :
  Dict.get h (fold_left (fun d p => Dict.set p.1 p.2 d) pairs d)
  = match last_binding h pairs with
    | Some name => Some name
    | None => Dict.get h d
    end.
Proof.
  induction pairs as [|p pairs IH] using rev_ind; [done|].
  rewrite fold_left_app, last_binding_snoc. simpl.
  destruct (decide (p.1 = h)) as [<-|Hne].
  - apply dict_get_set_eq.
  - by rewrite dict_get_set_ne.
Qed.

Lemma fold_set_NoDup (pairs : list (string * string)) (d : Dict.t string) :
  NoDup (Dict.keys d) ->
  NoDup (Dict.keys (fold_left (fun d p => Dict.set p.1 p.2 d) pairs d)).
Proof.
  revert d. induction pairs as [|p pairs IH]; intros d Hd; simpl; [done|].
  by apply IH, dict_keys_set_NoDup.
Qed.

Lemma load_names_NoDup file : NoDup (Dict.keys (load_names_from_file file)).
Proof.
  destruct file as [text|]; simpl; [|apply NoDup_nil_2].
  rewrite load_lines_fold. apply fold_set_NoDup, NoDup_nil_2.
Qed.

(** C9. Loading a roster text keeps exactly the lines that split into two
    comma-separated fields; the handle of a kept line, stripped and in lower
    case, is mapped to its stripped display name; the name of a handle is
    that of its last kept line; and no handle occurs twice in the roster. *)
Theorem load_names_from_file_roster (text : string) :
  let names_dict := load_names_from_file (Some text) in
  NoDup (Dict.keys names_dict) /\
  (forall h, h ∈ Dict.keys names_dict <-> h ∈ (kept_pairs text).*1) /\
  (forall h, Dict.get h names_dict = last_binding h (kept_pairs text)).
Proof.
  intros names_dict.
  assert (Hget : forall h, Dict.get h names_dict = last_binding h (kept_pairs text)).
  { intros h. unfold names_dict, load_names_from_file.
    rewrite load_lines_fold, fold_set_get. fold (kept_pairs text).
    by destruct (last_binding h (kept_pairs text)). }
  split; [apply load_names_NoDup|]. split; [|done].
  intros h. by rewrite <- dict_get_Some_keys, Hget, last_binding_is_Some.
Qed.

(** ** The constraint enforcer: [enforce_constraints] *)

(** On the strings [strftime("%H:%M:%S")] writes, the order of the strings
    is the order of the times of day. *)
Lemma gtb_cutoff_time h m s :
  h < 24 -> m < 60 -> s < 60 ->
  Str.gtb (pad2 h ++ ":" ++ pad2 m ++ ":" ++ pad2 s) "21:00:00"
  = lex_ltb [21; 0; 0] [h; m; s].
Proof.
  intros Hh Hm Hs.
  do 24 (try destruct h as [|h]); try lia; try (vm_compute; reflexivity).
  clear Hh.
  do 60 (try destruct m as [|m]); try lia; try (vm_compute; reflexivity).
  clear Hm.
  do 60 (try destruct s as [|s]); try lia; try (vm_compute; reflexivity).
Qed.

Lemma lex_ltb_irrefl l : lex_ltb l l = false.
Proof.
  induction l as [|x l IH]; simpl; [done|].
  by rewrite Nat.ltb_irrefl, Nat.eqb_refl, IH.
Qed.

Lemma dt_gtb_irrefl d : dt_gtb d d = false.
Proof. apply lex_ltb_irrefl. Qed.

#[local] Arguments Str.gtb : simpl never.
#[local] Arguments dt_gtb : simpl never.

(** What a call returns, case by case. *)
Lemma enforce_constraints_cases w time_str date_str launched_str :
  let time_str' := clamped_time time_str in
  enforce_constraints w time_str date_str launched_str
  = if String.eqb launched_str "N/A" then Ok (time_str', date_str)
    else match parser_parse w launched_str with
         | None => Raise ParserError
         | Some max_date =>
             if String.eqb date_str "N/A" then Ok (time_str', date_str)
             else match parser_parse w date_str with
                  | None => Raise ParserError
                  | Some date_obj =>
                      Ok (time_str',
                          if dt_gtb date_obj max_date then launched_str else date_str)
                  end
         end.
Proof.
  unfold enforce_constraints, clamped_time.
  destruct (String.eqb launched_str "N/A"); simpl.
  - destruct (String.eqb time_str "N/A"), (String.eqb date_str "N/A"); done.
  - destruct (parser_parse w launched_str); simpl; [|done].
    destruct (String.eqb date_str "N/A"); simpl.
    + by destruct (String.eqb time_str "N/A").
    + destruct (parser_parse w date_str); simpl; [|done].
      by destruct (String.eqb time_str "N/A").
Qed.

(** C5. For a time string other than ['N/A'], a call of the enforcer returns
    the string ["21:00:00"] when the time string is greater than it, and the
    time string itself otherwise; the call does return when no launch date is
    known; on the strings the pipeline passes, written by
    [strftime("%H:%M:%S")], greater means a later time of day; ["22:15:00"]
    becomes ["21:00:00"] and ["18:00:00"] stays. *)
Theorem enforce_constraints_cutoff (w : World) (time_str date_str launched_str : string) :
  time_str ≠ "N/A" ->
  (forall r, enforce_constraints w time_str date_str launched_str = Ok r ->
     r.1 = if Str.gtb time_str "21:00:00" then "21:00:00" else time_str) /\
  (launched_str = "N/A" \/
   (is_Some (parser_parse w launched_str) /\
    (date_str = "N/A" \/ is_Some (parser_parse w date_str))) ->
   exists r, enforce_constraints w time_str date_str launched_str = Ok r) /\
  (forall t, dt_valid t -> time_str = strftime_HMS t ->
     Str.gtb time_str "21:00:00" = lex_ltb [21; 0; 0] [hour t; minute t; second t]) /\
  enforce_constraints w "22:15:00" "N/A" "N/A" = Ok ("21:00:00", "N/A") /\
  enforce_constraints w "18:00:00" "N/A" "N/A" = Ok ("18:00:00", "N/A").
Proof.
  intros Hna. apply String.eqb_neq in Hna.
  pose proof (enforce_constraints_cases w time_str date_str launched_str) as Hc.
  unfold clamped_time in Hc. rewrite Hna in Hc. cbv zeta in Hc.
  split; [|split; [|split; [|split]]].
  - intros r. rewrite Hc.
    destruct (String.eqb launched_str "N/A"); [by intros [= <-]|].
    destruct (parser_parse w launched_str); [|done].
    destruct (String.eqb date_str "N/A"); [by intros [= <-]|].
    destruct (parser_parse w date_str); [|done]. by intros [= <-].
  - rewrite Hc. intros [->|[[max_date ->] Hd]]; [by eexists|].
    destruct (String.eqb launched_str "N/A"); [by eexists|].
    destruct Hd as [->|[date_obj ->]]; [by eexists|].
    destruct (String.eqb date_str "N/A"); by eexists.
  - intros t (_ & _ & _ & Hh & Hm & Hs & _) ->. unfold strftime_HMS.
    apply gtb_cutoff_time; assumption.
  - reflexivity.
  - reflexivity.
Qed.

Lemma enforce_constraints_cutoff_witness :
  "22:15:00" ≠ "N/A" /\
  forall r,
    enforce_constraints Demo.w "22:15:00" "2024-01-12" "2024-01-10" = Ok r ->
    r.1 = "21:00:00".
Proof.
  assert (H : "22:15:00" ≠ "N/A") by discriminate.
  split; [exact H|].
  exact (proj1 (enforce_constraints_cutoff Demo.w "22:15:00" "2024-01-12" "2024-01-10" H)).
Defined.

(** C6. The enforcer leaves the date alone when no launch date is known
    (['N/A']) and when the date is ['N/A']; when both are dates, the launch
    date replaces the date exactly when the date is strictly after it.  With
    the launch date ["2024-01-10"], ["2024-01-12"] becomes ["2024-01-10"]
    and ["2024-01-09"] stays. *)
Theorem enforce_constraints_launch_date (w : World) (time_str date_str launched_str : string) :
  (launched_str = "N/A" ->
     exists t', enforce_constraints w time_str date_str launched_str = Ok (t', date_str)) /\
  (date_str = "N/A" -> is_Some (parser_parse w launched_str) ->
     exists t', enforce_constraints w time_str date_str launched_str = Ok (t', date_str)) /\
  (forall date_obj max_date,
     date_str ≠ "N/A" -> launched_str ≠ "N/A" ->
     parser_parse w date_str = Some date_obj ->
     parser_parse w launched_str = Some max_date ->
     exists t', enforce_constraints w time_str date_str launched_str
                = Ok (t', if dt_gtb date_obj max_date then launched_str else date_str)) /\
  (forall d, dt_gtb d d = false) /\
  (parser_parse w = parse_ymd ->
     enforce_constraints w "N/A" "2024-01-12" "2024-01-10" = Ok ("N/A", "2024-01-10") /\
     enforce_constraints w "N/A" "2024-01-09" "2024-01-10" = Ok ("N/A", "2024-01-09")).
Proof.
  pose proof (enforce_constraints_cases w time_str date_str launched_str) as Hc.
  cbv zeta in Hc. split; [|split; [|split; [|split]]].
  - intros ->. rewrite Hc. by eexists.
  - intros -> [max_date Hl]. rewrite Hc, Hl.
    destruct (String.eqb launched_str "N/A"); by eexists.
  - intros date_obj max_date Hd%String.eqb_neq Hl%String.eqb_neq Hpd Hpl.
    rewrite Hc, Hd, Hl, Hpd, Hpl. by eexists.
  - apply dt_gtb_irrefl.
  - intros Hp. unfold enforce_constraints. rewrite Hp. split; reflexivity.
Qed.

Lemma enforce_constraints_launch_date_witness :
  parser_parse Demo.w = parse_ymd /\
  enforce_constraints Demo.w "N/A" "2024-01-12" "2024-01-10" = Ok ("N/A", "2024-01-10") /\
  enforce_constraints Demo.w "N/A" "2024-01-09" "2024-01-10" = Ok ("N/A", "2024-01-09").
Proof.
  split; [reflexivity|].
  exact (proj2 (proj2 (proj2 (proj2
    (enforce_constraints_launch_date Demo.w "N/A" "N/A" "N/A")))) eq_refl).
Defined.

(** ** Aggregation of the pull requests by author *)

Lemma submissions_snoc h prs p :
  submissions h (prs ++ [p])
  = submissions h prs ++ (if decide (Str.lower (k_author p) = h) then [p] else []).
Proof.
  unfold submissions. rewrite filter_app. f_equal.
Qed.

Lemma merged_files_snoc h prs p :
  merged_files h (prs ++ [p])
  = merged_files h prs
    ∪ (if decide (Str.lower (k_author p) = h) then list_to_set (k_files p) else ∅).
Proof.
  unfold merged_files. rewrite submissions_snoc, fmap_app, union_list_app_L.
  f_equal. destruct (decide (Str.lower (k_author p) = h)); [|done].
  apply union_list_singleton_L.
Qed.

Lemma merged_files_no_submission h prs : submissions h prs = [] -> merged_files h prs = ∅.
Proof. unfold merged_files. by intros ->. Qed.

Lemma inserted_files_snoc h prs p :
  inserted_files h (prs ++ [p])
  = inserted_files h prs ++ (if decide (Str.lower (k_author p) = h) then k_files p else []).
Proof.
  unfold inserted_files. rewrite submissions_snoc, bind_app. f_equal.
  destruct (decide (Str.lower (k_author p) = h)); [|done]. simpl. apply app_nil_r.
Qed.

Lemma inserted_files_no_submission h prs : submissions h prs = [] -> inserted_files h prs = [].
Proof. unfold inserted_files. by intros ->. Qed.

(** The set of the files of a handle holds the merged files of its
    submissions. *)
Lemma inserted_files_merged h prs :
  list_to_set (inserted_files h prs) = merged_files h prs.
Proof.
  unfold inserted_files, merged_files.
  induction (submissions h prs) as [|p l IH]; [done|].
  rewrite fmap_cons, bind_cons, list_to_set_app_L, IH. done.
Qed.

Lemma accumulate_pr_Ok auth d pr d' :
  accumulate_pr auth d pr = Ok d' ->
  exists p, pr = Some p /\
    d' = if decide (Str.lower (k_author p) ∈ auth)
         then Dict.set (Str.lower (k_author p))
                (default [] (Dict.get (Str.lower (k_author p)) d) ++ k_files p) d
         else d.
Proof.
  unfold accumulate_pr. destruct pr as [p|]; simpl; [|done].
  intros H. exists p. split; [done|].
  rewrite bool_decide_decide in H.
  destruct (decide (Str.lower (k_author p) ∈ auth)); [|congruence].
  destruct (Dict.get (Str.lower (k_author p)) d) as [seen|]; simpl; congruence.
Qed.

(** After the loop, the dictionary holds the files inserted for each
    authorized handle that has a submission, and nothing else. *)
Lemma accumulate_loop auth pr_list d :
  for_each (accumulate_pr auth) pr_list [] = Ok d ->
  exists prs, pr_list = Some <$> prs /\ NoDup (Dict.keys d) /\
    forall h, Dict.get h d
              = if decide (h ∈ auth /\ submissions h prs ≠ [])
                then Some (inserted_files h prs) else None.
Proof.
  revert d. induction pr_list as [|pr pr_list IH] using rev_ind; intros d.
  - intros [= <-]. exists []. split; [done|]. split; [apply NoDup_nil_2|].
    intros h. by rewrite decide_False by (by intros [_ ?]).
  - rewrite for_each_app. intros (d1 & Hd1 & Hd)%bind_Ok.
    destruct (IH _ Hd1) as (prs & -> & Hnodup & Hget). simpl in Hd.
    apply bind_Ok in Hd as (d2 & Hd2 & [= <-]).
    apply accumulate_pr_Ok in Hd2 as (p & -> & ->).
    exists (prs ++ [p]). split; [by rewrite fmap_app|].
    set (a := Str.lower (k_author p)) in *.
    split.
    { destruct (decide (a ∈ auth)); [by apply dict_keys_set_NoDup | done]. }
    intros h. rewrite submissions_snoc, inserted_files_snoc. fold a.
    destruct (decide (a = h)) as [<-|Hne].
    + destruct (decide (a ∈ auth)) as [Hauth|Hauth].
      * rewrite dict_get_set_eq, Hget.
        rewrite (decide_True (P := a ∈ auth /\ _ ++ [p] ≠ []))
          by (split; [done | by intros [_ ?]%app_eq_nil]).
        f_equal. destruct (decide (a ∈ auth /\ submissions a prs ≠ [])) as [_|Hn]; simpl; [done|].
        rewrite inserted_files_no_submission; [done|].
        destruct (submissions a prs); [done|]. exfalso. by apply Hn.
      * rewrite Hget. rewrite !decide_False by (by intros [? _]). done.
    + rewrite !app_nil_r.
      destruct (decide (a ∈ auth)); [|apply Hget].
      rewrite dict_get_set_ne by done. apply Hget.
Qed.

Lemma dict_get_elem_of {V : Type} (d : Dict.t V) k v :
  NoDup (Dict.keys d) -> (k, v) ∈ d -> Dict.get k d = Some v.
Proof.
  unfold Dict.keys. induction d as [|[k1 v1] d IH]; [by intros _ ?%elem_of_nil|].
  rewrite fmap_cons, NoDup_cons, elem_of_cons. intros [Hk1 Hd] [[= <- <-]|Hin]; simpl.
  - by rewrite String.eqb_refl.
  - destruct (String.eqb_spec k1 k) as [->|_]; [|by apply IH].
    destruct Hk1. apply list_elem_of_fmap. by exists (k, v).
Qed.

Lemma Forall2_and_Forall_l {A B : Type} (P : A -> B -> Prop) (Q : A -> Prop) l k :
  Forall2 P l k -> Forall Q l -> Forall2 (fun x y => Q x /\ P x y) l k.
Proof.
  induction 1 as [|x y l k HP _ IH]; [constructor|].
  intros [HQ Hl]%Forall_cons. constructor; [done | by apply IH].
Qed.

(** ** The rows of the authors with pull requests *)

Lemma score_of_eqb status :
  (if String.eqb status "Done" then 1%Z else 0%Z) = score_of status.
Proof.
  unfold score_of. destruct (String.eqb_spec status "Done"), (decide (status = "Done")); done.
Qed.

(** One iteration appends one row: the row of the author, with the status and
    the score of the files of the author, at the time and date the enforcer
    returns. *)
Lemma attended_step_Ok w names_dict e target_files launched_str pr_list st item st' :
  attended_step w names_dict e target_files launched_str pr_list st item = Ok st' ->
  exists real_name time_str0 date_str0 time_str date_str,
    Dict.get item.1 names_dict = Some real_name /\
    enforce_constraints w time_str0 date_str0 launched_str = Ok (time_str, date_str) /\
    st_output_data st'
    = st_output_data st
      ++ [attended_row w e target_files launched_str real_name item.2
            (determine_status (set_iter w item.2) target_files)
            (score_of (determine_status (set_iter w item.2) target_files))
            time_str date_str].
Proof.
  unfold attended_step. destruct item as [pr_author pr_files].
  intros (real_name & Hname%dict_item_Ok & H)%bind_Ok.
  apply bind_Ok in H as (latest & _ & H).
  destruct (match latest with
            | Some t => (strftime_HMS t, strftime_Ymd t)
            | None => (st_time_str st, st_date_str st)
            end) as [time_str0 date_str0].
  apply bind_Ok in H as ([time_str date_str] & Henf & [= <-]).
  exists real_name, time_str0, date_str0, time_str, date_str.
  by rewrite score_of_eqb.
Qed.

Lemma attended_loop w names_dict e target_files launched_str pr_list items st st' :
  for_each (attended_step w names_dict e target_files launched_str pr_list) items st
  = Ok st' ->
  exists rs,
    st_output_data st' = st_output_data st ++ rs /\
    Forall2 (attended_row_of w names_dict e target_files launched_str) items rs.
Proof.
  revert st. induction items as [|item items IH]; intros st; simpl.
  - intros [= <-]. exists []. by rewrite app_nil_r.
  - intros (st1 & Hstep & Hloop)%bind_Ok.
    apply attended_step_Ok in Hstep as (name & _ & _ & t & d & Hname & _ & Hout).
    destruct (IH _ Hloop) as (rs & Hrs & Hall).
    eexists (_ :: rs). split.
    + rewrite Hrs, Hout, <- app_assoc. done.
    + constructor; [|done]. by exists name, t, d.
Qed.

(** The status does not depend on the order in which the set of the files is
    iterated. *)
Lemma lowered_perm l l' : l ≡ₚ l' -> lowered l = lowered l'.
Proof. intros H. unfold lowered. by rewrite (list_to_set_perm_L (C:=gset string) _ _ H). Qed.

Lemma lowered_elements (l : list string) :
  lowered (elements (list_to_set l : gset string)) = lowered l.
Proof. unfold lowered. by rewrite list_to_set_elements_L. Qed.

Lemma determine_status_set_iter w pr_files target_files :
  determine_status (set_iter w pr_files) target_files
  = determine_status (elements (list_to_set pr_files : gset string)) target_files.
Proof.
  rewrite !determine_status_cases. by rewrite (lowered_perm _ _ (set_iter_perm w pr_files)).
Qed.

(** What the row of an author reports. *)
Lemma attended_row_reports w e target_files launched_str real_name pr_files
    time_str date_str :
  reports_files (list_to_set pr_files) target_files
    (attended_row w e target_files launched_str real_name pr_files
       (determine_status (set_iter w pr_files) target_files)
       (score_of (determine_status (set_iter w pr_files) target_files))
       time_str date_str).
Proof.
  unfold reports_files. cbn [Status Score Date Files attended_row].
  split; [apply determine_status_set_iter|]. split; [done|]. split; [done|].
  exists (set_iter w pr_files). split; [apply set_iter_perm|].
  destruct pr_files as [|f l]; [|destruct (set_iter w (f :: l)) eqn:Hiter; [|done]].
  - pose proof (set_iter_perm w []) as Hp. rewrite list_to_set_nil, elements_empty in Hp.
    by apply Permutation_nil_r in Hp as ->.
  - pose proof (set_iter_perm w (f :: l)) as Hp. rewrite Hiter in Hp.
    apply Permutation_nil_l in Hp. symmetry in Hp.
    apply elements_empty_inv, leibniz_equiv in Hp. set_solver.
Qed.

(** ** The rows of the roster members without pull request *)

Lemma non_attended_rows_sublist names_dict e target_files launched_str
    (attended_authors : gset string) (l : list (string * string)) :
  NoDup (Dict.keys names_dict) ->
  (forall x, x ∈ l -> x ∈ names_dict) ->
  Forall2 (fun h r =>
             exists real_name,
               Dict.get h names_dict = Some real_name /\
               r = not_done_row e target_files launched_str real_name)
    (filter (fun h => h ∉ attended_authors) l.*1)
    (non_attended_rows l e target_files launched_str attended_authors).
Proof.
  intros Hnodup. unfold non_attended_rows, Dict.items.
  induction l as [|[k v] l IH]; intros Hsub; [constructor|].
  rewrite fmap_cons. simpl. rewrite bool_decide_decide.
  destruct (decide (k ∈ attended_authors)) as [Hin|Hout].
  - rewrite filter_cons_False by (by intros ?). apply IH.
    intros x Hx. apply Hsub. by right.
  - rewrite filter_cons_True by done. constructor.
    + exists v. split; [|done]. apply dict_get_elem_of; [done|]. apply Hsub. by left.
    + apply IH. intros x Hx. apply Hsub. by right.
Qed.

Lemma non_attended_rows_spec names_dict e target_files launched_str
    (attended_authors : gset string) :
  NoDup (Dict.keys names_dict) ->
  Forall2 (fun h r =>
             exists real_name,
               Dict.get h names_dict = Some real_name /\
               r = not_done_row e target_files launched_str real_name)
    (filter (fun h => h ∉ attended_authors) (Dict.keys names_dict))
    (non_attended_rows names_dict e target_files launched_str attended_authors).
Proof. intros Hnodup. by apply non_attended_rows_sublist. Qed.

(** ** The rows of one entry *)

Lemma process_entry_skipped w names_dict state e :
  skipped e = true -> process_entry w names_dict state e = Ok state.
Proof. unfold process_entry. destruct state as [disk output_data]. by intros ->. Qed.

Lemma clone_repo_raises w repo_url disk x :
  clone_repo w repo_url disk = Raise x ->
  x = FileNotFoundError /\ git_clone w repo_url = GitMissing.
Proof.
  unfold clone_repo. destruct (disk !! sanitize_repo_name repo_url); [done|].
  destruct (git_clone w repo_url); [|done..]. by intros [= <-].
Qed.

Lemma clone_repo_returns w repo_url disk :
  git_clone w repo_url ≠ GitMissing -> exists disk', clone_repo w repo_url disk = Ok disk'.
Proof.
  intros Hgit. unfold clone_repo. destruct (disk !! sanitize_repo_name repo_url); [by eexists|].
  destruct (git_clone w repo_url); [done|by eexists..].
Qed.

(** An entry whose [git clone] raises does nothing else. *)
Lemma process_entry_clone_raises w names_dict disk output_data e x :
  skipped e = false ->
  clone_repo w (e_repo_url e) disk = Raise x ->
  process_entry w names_dict (disk, output_data) e = Raise x.
Proof. intros Hskip Hclone. unfold process_entry. by rewrite Hskip, Hclone. Qed.

(** What a processed entry appends: the rows of the attended authors, in the
    order of the aggregation, then the rows of the others. *)
Lemma process_entry_Ok w names_dict disk output_data e state' :
  skipped e = false ->
  process_entry w names_dict (disk, output_data) e = Ok state' ->
  exists disk' author_pr_files rs,
    clone_repo w (e_repo_url e) disk = Ok disk' /\
    for_each (accumulate_pr (list_to_set (Dict.keys names_dict)))
      (get_pr_list w (e_repo_url e)) [] = Ok author_pr_files /\
    state'
    = (disk',
       output_data ++ rs
       ++ non_attended_rows names_dict e (entry_target_files disk' e) (entry_launched_str w e)
            (list_to_set (Dict.keys author_pr_files))) /\
    Forall2 (attended_row_of w names_dict e (entry_target_files disk' e)
               (entry_launched_str w e))
      author_pr_files rs.
Proof.
  unfold process_entry. intros ->.
  intros (disk' & Hclone & H)%bind_Ok.
  apply bind_Ok in H as (repo_date & Hdate & H).
  apply bind_Ok in H as (author_pr_files & Hacc & H).
  apply bind_Ok in H as (st & Hloop & [= <-]).
  assert (Hl : match repo_date with Some d => strftime_Ymd d | None => "N/A" end
               = entry_launched_str w e).
  { unfold entry_launched_str.
    destruct (String.eqb (e_date e) EmptyString); simpl in Hdate; [by injection Hdate as <-|].
    destruct (parser_parse w (e_date e)); [by injection Hdate as <-|done]. }
  rewrite Hl in *. fold (entry_target_files disk' e) in *.
  apply attended_loop in Hloop as (rs & Hrs & Hall). simpl in Hrs.
  exists disk', author_pr_files, rs. split; [done|]. split; [done|]. split; [|done].
  by rewrite Hrs, <- app_assoc.
Qed.

(** The rows a processed entry appends are the rows of the handles of the
    roster, one for each handle. *)
Lemma process_entry_rows w names_dict disk output_data e state' :
  NoDup (Dict.keys names_dict) ->
  skipped e = false ->
  process_entry w names_dict (disk, output_data) e = Ok state' ->
  exists chunk,
    state' = (cloned_disk w disk (e_repo_url e), output_data ++ chunk) /\
    rows_of_entry w names_dict (cloned_disk w disk (e_repo_url e), e) chunk.
Proof.
  intros Hnodup Hskip (disk' & apf & rs & Hclone & Hacc & -> & Hrs)%process_entry_Ok; [|done].
  unfold cloned_disk. rewrite Hclone.
  destruct (accumulate_loop _ _ _ Hacc) as (prs & Hprs & Hnd & Hget).
  eexists. split; [done|].
  set (auth := list_to_set (Dict.keys names_dict) : gset string) in *.
  set (attended := list_to_set (Dict.keys apf) : gset string).
  assert (Hatt : forall h, h ∈ Dict.keys apf <-> h ∈ auth /\ submissions h prs ≠ []).
  { intros h. rewrite <- dict_get_Some_keys, Hget.
    destruct (decide (h ∈ auth /\ submissions h prs ≠ [])); split; try done.
    all: by intros [? ?]. }
  exists (Dict.keys apf ++ filter (fun h => h ∉ attended) (Dict.keys names_dict)).
  split.
  - apply NoDup_Permutation; [|done|].
    + apply NoDup_app. split; [done|]. split; [|by apply NoDup_filter].
      intros h Hh [Hout _]%list_elem_of_filter. apply Hout.
      by apply elem_of_list_to_set.
    + intros h. rewrite elem_of_app, list_elem_of_filter. unfold attended.
      rewrite elem_of_list_to_set. split.
      * intros [[Hh _]%Hatt|[_ Hh]]; [|done]. by apply elem_of_list_to_set in Hh.
      * intros Hh. destruct (decide (h ∈ Dict.keys apf)); [by left | by right].
  - apply Forall2_app.
    + unfold Dict.keys. apply Forall2_fmap_l.
      eapply Forall2_impl.
      { apply (Forall2_and_Forall_l _ (fun item => item ∈ apf) _ _ Hrs).
        by apply Forall_forall. }
      intros [h files] r [Hin (name & t & d & Hname & ->)]. simpl in *.
      exists name, prs. split; [done|]. split; [done|]. split; [done|].
      pose proof (dict_get_elem_of _ _ _ Hnd Hin) as Hfiles. rewrite Hget in Hfiles.
      destruct (decide (h ∈ auth /\ submissions h prs ≠ [])) as [[_ Hsub]|]; [|done].
      injection Hfiles as <-. rewrite decide_False by done.
      rewrite <- inserted_files_merged. apply attended_row_reports.
    + eapply Forall2_impl.
      { apply (Forall2_and_Forall_l _
                 (fun h => (h ∉ attended) /\ (h ∈ Dict.keys names_dict)) _ _
                 (non_attended_rows_spec names_dict e _ _ attended Hnodup)).
        apply Forall_forall. intros h Hh. by apply list_elem_of_filter in Hh. }
      intros h r [[Hout Hh] (name & Hname & ->)]. simpl.
      exists name, prs. split; [done|]. split; [done|]. split; [done|].
      destruct (decide (submissions h prs = [])) as [|Hsub]; [done|].
      destruct Hout. apply elem_of_list_to_set, Hatt. split; [|done].
      by apply elem_of_list_to_set.
Qed.

(** ** The rows of a run *)

Lemma on_disk_entries w disk feed : (on_disk w disk feed).*2 = filter processed feed.
Proof.
  revert disk. induction feed as [|e feed IH]; intros disk; [done|]. simpl.
  destruct (skipped e) eqn:Hskip.
  - rewrite filter_cons_False by (unfold processed; congruence). apply IH.
  - rewrite filter_cons_True by done. simpl. by rewrite IH.
Qed.

Lemma run_rows w names_dict feed disk output_data state' :
  NoDup (Dict.keys names_dict) ->
  for_each (process_entry w names_dict) feed (disk, output_data) = Ok state' ->
  exists chunks,
    state'.2 = output_data ++ concat chunks /\
    Forall2 (rows_of_entry w names_dict) (on_disk w disk feed) chunks.
Proof.
  intros Hnodup. revert disk output_data.
  induction feed as [|e feed IH]; intros disk output_data.
  - intros [= <-]. exists []. split; [by rewrite app_nil_r | constructor].
  - rewrite for_each_cons. cbn [on_disk].
    intros ([disk1 out1] & He & Hfeed)%bind_Ok.
    destruct (skipped e) eqn:Hskip.
    + rewrite process_entry_skipped in He by done. injection He as <- <-.
      by apply IH.
    + apply process_entry_rows in He as (chunk & [= -> ->] & Hchunk); [|done..].
      destruct (IH _ _ Hfeed) as (chunks & -> & Hchunks).
      exists (chunk :: chunks). split; [by rewrite <- app_assoc|].
      by constructor.
Qed.

Lemma prepare_and_send_data_Ok w names_file feed rows :
  prepare_and_send_data w names_file feed = Ok (Some rows) ->
  exists disk,
    for_each (process_entry w (load_names_from_file names_file)) feed (working_copies w, [])
    = Ok (disk, rows).
Proof.
  unfold prepare_and_send_data. destruct feed as [|e feed]; [done|].
  intros ([disk out] & -> & [= <-])%bind_Ok. by exists disk.
Qed.

Lemma published_rows w names_file feed rows :
  prepare_and_send_data w names_file feed = Ok (Some rows) ->
  exists chunks,
    rows = concat chunks /\
    Forall2 (rows_of_entry w (load_names_from_file names_file))
      (on_disk w (working_copies w) feed) chunks.
Proof.
  intros [disk Hrun]%prepare_and_send_data_Ok.
  apply run_rows in Hrun as (chunks & Hrows & Hchunks); [|apply load_names_NoDup].
  simpl in Hrows. by exists chunks.
Qed.

(** ** Status and score *)

Lemma determine_status_Done pr_files target_files :
  determine_status pr_files target_files = "Done"
  <-> lowered target_files ⊆ lowered pr_files.
Proof.
  rewrite determine_status_cases.
  destruct (bool_decide_reflect (lowered target_files ⊆ lowered pr_files)); split; done.
Qed.

Lemma determine_status_Not_Done pr_files target_files :
  determine_status pr_files target_files = "Not Done"
  <-> ¬ lowered target_files ⊆ lowered pr_files.
Proof.
  rewrite determine_status_cases.
  destruct (bool_decide_reflect (lowered target_files ⊆ lowered pr_files)); split; done.
Qed.

Lemma row_for_score_ok w disk names_dict e h r :
  row_for w disk names_dict e h r -> row_score_ok r.
Proof.
  intros (name & prs & _ & _ & _ & Hr).
  destruct (decide (submissions h prs = [])).
  - destruct Hr as (Hstatus & Hscore & _). by right.
  - destruct Hr as (Hstatus & Hscore & _). unfold row_score_ok.
    rewrite Hscore, Hstatus. unfold score_of.
    rewrite determine_status_cases. case bool_decide; [by left | by right].
Qed.

Lemma Forall2_Forall_r_impl {A B : Type} (P : A -> B -> Prop) (Q : B -> Prop) l k :
  (forall x y, P x y -> Q y) -> Forall2 P l k -> Forall Q k.
Proof. intros HPQ. induction 1; constructor; eauto. Qed.

Lemma run_rows_score_ok w names_file feed rows :
  prepare_and_send_data w names_file feed = Ok (Some rows) -> Forall row_score_ok rows.
Proof.
  intros (chunks & -> & Hchunks)%published_rows.
  apply Forall_concat. eapply Forall2_Forall_r_impl; [|exact Hchunks].
  intros [disk e] chunk (handles & _ & Hrows). simpl.
  eapply Forall2_Forall_r_impl; [|exact Hrows].
  intros h r. apply row_for_score_ok.
Qed.

(** C2. The status is ['Done'] exactly when the target files, in lower case,
    are a subset of the changed files, in lower case, that is when every
    target file is a changed file up to the case of the letters, and
    ['Not Done'] otherwise; and in every row a run publishes the score is 1
    with the status ['Done'] and 0 with the status ['Not Done']. *)
Theorem determine_status_subset_score (pr_files target_files : list string) :
  (determine_status pr_files target_files = "Done"
   <-> lowered target_files ⊆ lowered pr_files) /\
  (lowered target_files ⊆ lowered pr_files
   <-> forall t, t ∈ target_files -> exists f, f ∈ pr_files /\ Str.lower f = Str.lower t) /\
  (determine_status pr_files target_files = "Not Done"
   <-> ¬ lowered target_files ⊆ lowered pr_files) /\
  (forall w names_file feed rows,
     prepare_and_send_data w names_file feed = Ok (Some rows) ->
     Forall row_score_ok rows).
Proof.
  split; [apply determine_status_Done|].
  split; [apply lowered_subseteq|].
  split; [apply determine_status_Not_Done|].
  apply run_rows_score_ok.
Qed.

Lemma determine_status_subset_score_witness :
  determine_status ["Main.java"; "README.md"] ["main.JAVA"] = "Done" /\
  exists rows,
    prepare_and_send_data Demo.w (Some Demo.roster) Demo.feed = Ok (Some rows) /\
    Forall row_score_ok rows.
Proof.
  split; [vm_compute; reflexivity|].
  eexists. split; [vm_compute; reflexivity|].
  refine (proj2 (proj2 (proj2 (determine_status_subset_score [] []))) Demo.w
            (Some Demo.roster) Demo.feed _ _).
  vm_compute. reflexivity.
Defined.

(** ** Entries that are skipped *)

Lemma skipped_iff e :
  skipped e = true <-> e_repo_url e = EmptyString \/ e_assignment e = EmptyString.
Proof.
  unfold skipped. rewrite orb_true_iff.
  by destruct (String.eqb_spec (e_repo_url e) EmptyString),
              (String.eqb_spec (e_assignment e) EmptyString); intuition.
Qed.

(** C10. An entry of the feed whose repository or whose assignment is empty
    appends no row at all, and the rows of the other entries are those of the
    feed without it (a feed that holds nothing else publishes the empty
    list). *)
Theorem empty_entry_emits_no_rows (w : World) (names_file : option string)
    (feed1 feed2 : list entry) (e : entry) :
  e_repo_url e = EmptyString \/ e_assignment e = EmptyString ->
  (forall names_dict state, process_entry w names_dict state e = Ok state) /\
  prepare_and_send_data w names_file (feed1 ++ e :: feed2)
  = match prepare_and_send_data w names_file (feed1 ++ feed2) with
    | Ok None => Ok (Some [])
    | r => r
    end.
Proof.
  intros Hskip%skipped_iff. split; [intros; by apply process_entry_skipped|].
  assert (Hloop : for_each (process_entry w (load_names_from_file names_file))
                    (feed1 ++ e :: feed2) (working_copies w, [])
                  = for_each (process_entry w (load_names_from_file names_file))
                      (feed1 ++ feed2) (working_copies w, [])).
  { rewrite !for_each_app. destruct (for_each _ feed1 _) as [state|]; [|done].
    cbn [mbind result_bind]. by rewrite for_each_cons, process_entry_skipped. }
  unfold prepare_and_send_data.
  destruct (feed1 ++ e :: feed2) as [|e0 l0] eqn:Hl; [by destruct feed1|].
  rewrite Hloop. destruct (feed1 ++ feed2) as [|e1 l1]; [done|].
  by destruct (for_each _ (e1 :: l1) _).
Qed.

Lemma empty_entry_emits_no_rows_witness :
  (e_repo_url Demo.no_repo = EmptyString \/ e_assignment Demo.no_repo = EmptyString) /\
  prepare_and_send_data Demo.w (Some Demo.roster) ([Demo.no_repo] ++ Demo.no_repo :: [Demo.hw1])
  = prepare_and_send_data Demo.w (Some Demo.roster) ([Demo.no_repo] ++ [Demo.hw1]).
Proof.
  assert (H : e_repo_url Demo.no_repo = EmptyString \/ e_assignment Demo.no_repo = EmptyString)
    by (left; reflexivity).
  split; [exact H|].
  exact (proj2 (empty_entry_emits_no_rows Demo.w (Some Demo.roster)
                  [Demo.no_repo] [Demo.hw1] Demo.no_repo H)).
Defined.

(** ** What the enforcer does not touch *)

Lemma same_entry_launched_str w1 w2 e :
  same_but_commits w1 w2 -> entry_launched_str w1 e = entry_launched_str w2 e.
Proof.
  intros (_ & _ & _ & Hparse & Hzone & _). unfold entry_launched_str.
  rewrite Hparse. destruct (parser_parse w2 (e_date e)); [|done]. by rewrite Hzone.
Qed.

Lemma same_clone_repo w1 w2 repo_url disk :
  same_but_commits w1 w2 -> clone_repo w1 repo_url disk = clone_repo w2 repo_url disk.
Proof. intros (_ & Hgit & _). unfold clone_repo. by rewrite Hgit. Qed.

Lemma attended_rows_graded w1 w2 names_dict e target_files launched_str
    (items : list (string * list string)) rs1 rs2 :
  (forall l, set_iter w1 l = set_iter w2 l) ->
  Forall2 (attended_row_of w1 names_dict e target_files launched_str) items rs1 ->
  Forall2 (attended_row_of w2 names_dict e target_files launched_str) items rs2 ->
  graded <$> rs1 = graded <$> rs2.
Proof.
  intros Hiter H1. revert rs2.
  induction H1 as [|item r1 items rs1 Hr1 _ IH]; intros rs2 H2.
  - by apply Forall2_nil_inv_l in H2 as ->.
  - apply Forall2_cons_inv_l in H2 as (r2 & rs2' & Hr2 & H2 & ->).
    rewrite !fmap_cons. f_equal; [|by apply IH].
    destruct Hr1 as (n1 & t1 & d1 & Hn1 & ->), Hr2 as (n2 & t2 & d2 & Hn2 & ->).
    rewrite Hn1 in Hn2. injection Hn2 as ->.
    unfold graded, attended_row. cbn [Repo Name Assignment Files Target_Files Status
      Launched Type_ Score]. by rewrite !Hiter.
Qed.

Lemma process_entry_graded w1 w2 names_dict e disk out1 out2 state1 state2 :
  same_but_commits w1 w2 ->
  graded <$> out1 = graded <$> out2 ->
  process_entry w1 names_dict (disk, out1) e = Ok state1 ->
  process_entry w2 names_dict (disk, out2) e = Ok state2 ->
  state1.1 = state2.1 /\ graded <$> state1.2 = graded <$> state2.2.
Proof.
  intros Hsame Hout H1 H2. destruct (skipped e) eqn:Hskip.
  { rewrite process_entry_skipped in H1, H2 by done. by injection H1 as <-; injection H2 as <-. }
  apply process_entry_Ok in H1 as (disk1 & apf1 & rs1 & Hclone1 & Hacc1 & -> & Hrs1); [|done].
  apply process_entry_Ok in H2 as (disk2 & apf2 & rs2 & Hclone2 & Hacc2 & -> & Hrs2); [|done].
  rewrite (same_clone_repo w1 w2 _ _ Hsame), Hclone2 in Hclone1. injection Hclone1 as <-.
  rewrite <- (same_entry_launched_str w1 w2 e Hsame) in *.
  destruct Hsame as (Hprs & _ & _ & _ & _ & Hiter). rewrite <- Hprs, Hacc1 in Hacc2.
  injection Hacc2 as <-. split; [done|]. simpl.
  rewrite !fmap_app, Hout. f_equal. f_equal.
  by eapply attended_rows_graded.
Qed.

Lemma run_graded w1 w2 names_dict feed disk out1 out2 state1 state2 :
  same_but_commits w1 w2 ->
  graded <$> out1 = graded <$> out2 ->
  for_each (process_entry w1 names_dict) feed (disk, out1) = Ok state1 ->
  for_each (process_entry w2 names_dict) feed (disk, out2) = Ok state2 ->
  graded <$> state1.2 = graded <$> state2.2.
Proof.
  intros Hsame. revert disk out1 out2.
  induction feed as [|e feed IH]; intros disk out1 out2 Hout.
  - by intros [= <-] [= <-].
  - rewrite !for_each_cons.
    intros ([d1 o1] & He1 & H1)%bind_Ok ([d2 o2] & He2 & H2)%bind_Ok.
    destruct (process_entry_graded _ _ _ _ _ _ _ _ _ Hsame Hout He1 He2) as [Hd Ho].
    simpl in Hd, Ho. subst d2. by eapply IH.
Qed.

(** C8. The row the loop appends for an author carries the status and the
    score computed from the files of the author and the target files alone;
    what the enforcer returns only fills its time and its date.  And two runs
    that differ only in the commit times, whatever the clamps do in them,
    publish rows that are the same but for the time and the date. *)
Theorem enforcer_changes_time_and_date_only :
  (forall (w : World) names_dict e target_files launched_str pr_list st item st',
     attended_step w names_dict e target_files launched_str pr_list st item = Ok st' ->
     exists real_name time_str0 date_str0 time_str date_str,
       Dict.get item.1 names_dict = Some real_name /\
       enforce_constraints w time_str0 date_str0 launched_str = Ok (time_str, date_str) /\
       st_output_data st'
       = st_output_data st
         ++ [attended_row w e target_files launched_str real_name item.2
               (determine_status (set_iter w item.2) target_files)
               (score_of (determine_status (set_iter w item.2) target_files))
               time_str date_str]) /\
  (forall (w1 w2 : World) names_file feed rows1 rows2,
     same_but_commits w1 w2 ->
     prepare_and_send_data w1 names_file feed = Ok (Some rows1) ->
     prepare_and_send_data w2 names_file feed = Ok (Some rows2) ->
     graded <$> rows1 = graded <$> rows2).
Proof.
  split; [apply attended_step_Ok|].
  intros w1 w2 names_file feed rows1 rows2 Hsame
    [d1 H1]%prepare_and_send_data_Ok [d2 H2]%prepare_and_send_data_Ok.
  pose proof Hsame as (_ & _ & Hdisk & _). rewrite <- Hdisk in H2.
  by apply (run_graded _ _ _ _ _ _ _ _ _ Hsame eq_refl H1 H2).
Qed.

Lemma enforcer_changes_time_and_date_only_witness :
  same_but_commits Demo.w Demo.w3 /\
  exists rows1 rows2,
    prepare_and_send_data Demo.w (Some Demo.roster) Demo.feed = Ok (Some rows1) /\
    prepare_and_send_data Demo.w3 (Some Demo.roster) Demo.feed = Ok (Some rows2) /\
    Time <$> rows1 = ["21:00:00"; "N/A"] /\
    Time <$> rows2 = ["18:00:00"; "N/A"] /\
    graded <$> rows1 = graded <$> rows2.
Proof.
  assert (Hsame : same_but_commits Demo.w Demo.w3) by (repeat split).
  split; [exact Hsame|].
  eexists _, _. split; [vm_compute; reflexivity|]. split; [vm_compute; reflexivity|].
  split; [reflexivity|]. split; [reflexivity|].
  refine (proj2 enforcer_changes_time_and_date_only Demo.w Demo.w3
            (Some Demo.roster) Demo.feed _ _ Hsame _ _); vm_compute; reflexivity.
Defined.

(** ** The target files of an entry *)

Lemma wildcard_files_flat_map disk repo_dir :
  flat_map
    (fun files =>
       List.filter (fun file => Str.endswith file ".java" || Str.endswith file ".js") files)
    (os_walk disk repo_dir)
  = wildcard_files disk repo_dir.
Proof.
  unfold wildcard_files. induction (os_walk disk repo_dir) as [|files l IH]; [done|].
  simpl. by rewrite IH.
Qed.

(** C3, on the code: with ["N/A"] or ["NA"] in the column the target files
    are the [.java] and [.js] files of the working copy, but with an empty
    column they are the empty list, whatever the working copy holds: the
    split of the empty string is the list of one empty string, which is
    neither empty nor a wildcard word. *)
Theorem select_target_files_empty_column (disk : Disk) (repo_dir : string) :
  select_target_files disk repo_dir EmptyString = [] /\
  select_target_files disk repo_dir "N/A" = wildcard_files disk repo_dir /\
  select_target_files disk repo_dir "NA" = wildcard_files disk repo_dir /\
  clone_repo Demo.w (e_repo_url Demo.hw2) ∅ = Ok Demo.disk /\
  wildcard_files Demo.disk "hw1" = ["Main.java"; "app.js"] /\
  entry_target_files Demo.disk Demo.hw2 = [].
Proof.
  split; [reflexivity|].
  split; [apply wildcard_files_flat_map|].
  split; [apply wildcard_files_flat_map|].
  split; [reflexivity|]. split; vm_compute; reflexivity.
Qed.

(** ** The time and the date of an author without commit time *)

(** When no commit time is found for an author, the time and the date of the
    row are those the loop holds from the author before, through the enforcer
    once more. *)
Lemma attended_step_no_commit_time w names_dict e target_files launched_str pr_list
    st pr_author pr_files st' :
  for_each (latest_commit_step w (e_repo_url e) pr_author) pr_list None = Ok None ->
  attended_step w names_dict e target_files launched_str pr_list st (pr_author, pr_files)
  = Ok st' ->
  exists r,
    st_output_data st' = st_output_data st ++ [r] /\
    enforce_constraints w (st_time_str st) (st_date_str st) launched_str
    = Ok (Time r, default EmptyString (Date r)).
Proof.
  unfold attended_step. intros ->.
  intros (real_name & _ & H)%bind_Ok. simpl in H.
  apply bind_Ok in H as ([t d] & Henf & [= <-]). simpl.
  by eexists.
Qed.

(** The first author of an entry, and any author before whom none had a
    commit time, does get ['N/A'] for both when its queries all fail. *)
Lemma attended_step_first_no_commit_time w names_dict e target_files launched_str
    pr_list output_data pr_author pr_files st' :
  for_each (latest_commit_step w (e_repo_url e) pr_author) pr_list None = Ok None ->
  attended_step w names_dict e target_files launched_str pr_list
    {| st_time_str := "N/A"; st_date_str := "N/A"; st_output_data := output_data |}
    (pr_author, pr_files) = Ok st' ->
  exists r,
    st_output_data st' = output_data ++ [r] /\ Time r = "N/A" /\ Date r = Some "N/A".
Proof.
  intros Hnone Hstep.
  unfold attended_step in Hstep. rewrite Hnone in Hstep.
  apply bind_Ok in Hstep as (real_name & _ & H). simpl in H.
  rewrite enforce_constraints_cases in H. cbv zeta in H.
  change (clamped_time "N/A") with "N/A" in H.
  destruct (String.eqb launched_str "N/A"); [injection H as <-; by eexists|].
  destruct (parser_parse w launched_str); [|done].
  injection H as <-. by eexists.
Qed.

(** C4, on the code: the second author of this run has one pull request,
    whose commits cannot be read; the row of that author reports the time and
    the date of the row before, not ['N/A']. *)
Theorem stale_time_and_date_of_second_author :
  gh_pr_commits Demo.w2 (e_repo_url Demo.hw1) (k_id Demo.bob_pr) = None /\
  exists rows,
    prepare_and_send_data Demo.w2 (Some Demo.roster) Demo.feed = Ok (Some rows) /\
    (fun r => (Name r, Time r, Date r)) <$> rows
    = [("Alice A", "21:00:00", Some "2024-01-10");
       ("Bob B", "21:00:00", Some "2024-01-10")].
Proof.
  split; [reflexivity|].
  eexists. split; vm_compute; reflexivity.
Qed.

(** ** The latest commit of an author *)

Lemma lex_ltb_asym a b : lex_ltb a b = true -> lex_ltb b a = false.
Proof.
  revert b. induction a as [|x a IH]; intros [|y b]; simpl; try done.
  destruct (Nat.ltb_spec x y), (Nat.ltb_spec y x), (Nat.eqb_spec x y),
    (Nat.eqb_spec y x); simpl; try lia; try done.
  apply IH.
Qed.

Lemma lex_le_trans a b c :
  lex_ltb b a = false -> lex_ltb c b = false -> lex_ltb c a = false.
Proof.
  revert b c. induction a as [|x a IH]; intros [|y b] [|z c]; simpl; try done.
  destruct (Nat.ltb_spec y x), (Nat.eqb_spec y x), (Nat.ltb_spec z y),
    (Nat.eqb_spec z y), (Nat.ltb_spec z x), (Nat.eqb_spec z x);
    simpl; try lia; try done.
  apply IH.
Qed.

(** [dt_max_from] returns a greatest element of the list it is given. *)
Lemma dt_max_from_greatest best l :
  dt_max_from best l ∈ best :: l /\
  forall x, x ∈ best :: l -> dt_gtb x (dt_max_from best l) = false.
Proof.
  revert best. induction l as [|d l IH]; intros best; simpl.
  - split; [by left|]. intros x ->%list_elem_of_singleton. apply dt_gtb_irrefl.
  - destruct (IH (if dt_gtb d best then d else best)) as [Hin Hmax]. split.
    + apply elem_of_cons in Hin as [->|Hin].
      * destruct (dt_gtb d best); [right; left | left].
      * by do 2 right.
    + intros x Hx.
      assert (Hbest : dt_gtb x (if dt_gtb d best then d else best) = false
                      \/ x ∈ l).
      { apply elem_of_cons in Hx as [->|Hx].
        - left. destruct (dt_gtb d best) eqn:Hd; [|apply dt_gtb_irrefl].
          by apply lex_ltb_asym.
        - apply elem_of_cons in Hx as [->|Hx]; [|by right].
          left. destruct (dt_gtb d best) eqn:Hd; [apply dt_gtb_irrefl | done]. }
      destruct Hbest as [Hle|Hx'].
      * unfold dt_gtb in *. eapply lex_le_trans; [exact Hle|].
        apply (Hmax (if lex_ltb (dt_fields best) (dt_fields d) then d else best)).
        by left.
      * apply Hmax. by right.
Qed.

(** The loop over the pull requests returns the latest of the commit times
    found for the author, starting from the time it is given. *)
Lemma latest_commit_loop_from w repo_url h prs acc r :
  for_each (latest_commit_step w repo_url h) (Some <$> prs) acc = Ok r ->
  r = latest_of (option_list acc ++ found_times w repo_url h prs).
Proof.
  revert acc. induction prs as [|p prs IH]; intros acc.
  - intros [= <-]. unfold found_times, submissions. rewrite filter_nil. simpl.
    rewrite app_nil_r. by destruct acc.
  - rewrite fmap_cons. simpl. intros (acc' & Hstep & Hloop)%bind_Ok.
    apply IH in Hloop as ->. clear IH. unfold latest_commit_step in Hstep. simpl in Hstep.
    unfold found_times, submissions in *.
    destruct (String.eqb_spec (Str.lower (k_author p)) h) as [Hh|Hh].
    + rewrite filter_cons_True by done. simpl.
      unfold get_latest_commit_time, pr_commit_time in *.
      destruct (gh_pr_commits w repo_url (k_id p)) as [[|c cs]|]; simpl in *.
      * done.
      * destruct acc as [l|]; injection Hstep as <-; done.
      * injection Hstep as <-. done.
    + rewrite filter_cons_False by done. by injection Hstep as <-.
Qed.

(** The latest commit time of an author is a greatest of the times found for
    its submissions, and there is none when every query fails. *)
Lemma latest_commit_loop w repo_url h prs r :
  for_each (latest_commit_step w repo_url h) (Some <$> prs) None = Ok r ->
  match r with
  | Some t =>
      t ∈ found_times w repo_url h prs /\
      forall x, x ∈ found_times w repo_url h prs -> dt_gtb x t = false
  | None => found_times w repo_url h prs = []
  end.
Proof.
  intros ->%latest_commit_loop_from. simpl.
  destruct (found_times w repo_url h prs) as [|t ts]; [done|].
  apply dt_max_from_greatest.
Qed.

(** ** Runs that do not raise *)

Lemma digit_val_digit n : digit_val (digit n) = Some (n mod 10).
Proof.
  unfold digit. pose proof (Nat.mod_upper_bound n 10) as Hlt.
  destruct (n mod 10) as [|[|[|[|[|[|[|[|[|[|k]]]]]]]]]]; try reflexivity. lia.
Qed.

Lemma number2_digits a b :
  number2 (digit a) (digit b) = Some (10 * (a mod 10) + b mod 10).
Proof. unfold number2. by rewrite !digit_val_digit. Qed.

Lemma two_digits n : n < 100 -> 10 * ((n / 10) mod 10) + n mod 10 = n.
Proof.
  intros H.
  pose proof (Nat.div_mod_eq n 10). pose proof (Nat.mod_upper_bound n 10).
  pose proof (Nat.div_mod_eq (n / 10) 10). pose proof (Nat.mod_upper_bound (n / 10) 10).
  lia.
Qed.

Lemma four_digits n :
  n < 100 * 100 ->
  100 * (10 * ((n / 1000) mod 10) + (n / 100) mod 10)
  + (10 * ((n / 10) mod 10) + n mod 10) = n.
Proof.
  intros H.
  pose proof (Nat.div_mod_eq n 10). pose proof (Nat.mod_upper_bound n 10).
  pose proof (Nat.div_mod_eq (n / 10) 10). pose proof (Nat.mod_upper_bound (n / 10) 10).
  pose proof (Nat.div_mod_eq n 100). pose proof (Nat.mod_upper_bound n 100).
  pose proof (Nat.div_mod_eq (n / 100) 10). pose proof (Nat.mod_upper_bound (n / 100) 10).
  pose proof (Nat.div_mod_eq n 1000). pose proof (Nat.mod_upper_bound n 1000).
  pose proof (Nat.div_mod_eq (n / 1000) 10). pose proof (Nat.mod_upper_bound (n / 1000) 10).
  lia.
Qed.

Lemma strftime_Ymd_chars d :
  strftime_Ymd d
  = String (digit (year d / 1000)) (String (digit (year d / 100))
      (String (digit (year d / 10)) (String (digit (year d))
        (String "-" (String (digit (month d / 10)) (String (digit (month d))
          (String "-" (String (digit (day d / 10)) (String (digit (day d)) EmptyString))))))))).
Proof. reflexivity. Qed.

(** The parser of the concrete worlds reads back the date [strftime] writes. *)
Lemma parse_ymd_strftime d :
  dt_valid d ->
  parse_ymd (strftime_Ymd d) = Some (mkDatetime (year d) (month d) (day d) 0 0 0 0).
Proof.
  intros ([Hy1 Hy2] & [Hm1 Hm2] & [Hd1 Hd2] & _).
  rewrite strftime_Ymd_chars. unfold parse_ymd. cbv iota beta.
  rewrite !number2_digits. cbn [mbind option_bind].
  rewrite (two_digits (month d)), (two_digits (day d)), (four_digits (year d)) by lia.
  destruct (Nat.leb_spec 1 (month d)), (Nat.leb_spec (month d) 12),
    (Nat.leb_spec 1 (day d)), (Nat.leb_spec (day d) 31), (Nat.leb_spec 1 (year d));
    try lia. done.
Qed.

Lemma enforce_constraints_total w time_str date_str launched_str :
  date_ok w launched_str -> date_ok w date_str ->
  exists t d,
    enforce_constraints w time_str date_str launched_str = Ok (t, d) /\ date_ok w d.
Proof.
  intros Hl Hd. rewrite enforce_constraints_cases. cbv zeta.
  destruct (String.eqb_spec launched_str "N/A") as [|Hne]; [by eexists _, _|].
  destruct Hl as [|[max_date Hl]]; [done|]. rewrite Hl.
  destruct (String.eqb_spec date_str "N/A") as [|Hne']; [by eexists _, _|].
  destruct Hd as [|[date_obj Hd]]; [done|]. rewrite Hd.
  eexists _, _. split; [done|].
  destruct (dt_gtb date_obj max_date); right; by eexists.
Qed.

Lemma Forall_is_Some_fmap {A : Type} (l : list (option A)) :
  Forall is_Some l -> exists l', l = Some <$> l'.
Proof.
  induction 1 as [|x l [a ->] _ [l' ->]]; [by exists []|]. by exists (a :: l').
Qed.

Lemma accumulate_pr_total auth d p : exists d', accumulate_pr auth d (Some p) = Ok d'.
Proof.
  unfold accumulate_pr. simpl.
  destruct (bool_decide (Str.lower (k_author p) ∈ auth)); [|by eexists].
  destruct (Dict.get (Str.lower (k_author p)) d); by eexists.
Qed.

Lemma accumulate_loop_total auth prs d0 :
  exists d, for_each (accumulate_pr auth) (Some <$> prs) d0 = Ok d.
Proof.
  revert d0. induction prs as [|p prs IH]; intros d0; [by eexists|].
  rewrite fmap_cons, for_each_cons.
  destruct (accumulate_pr_total auth d0 p) as [d1 ->]. apply IH.
Qed.

Section total.
Context (w : World) (feed : list entry) (Hw : well_behaved w feed).

Lemma pr_commit_time_reads_back repo_url p t :
  pr_commit_time w repo_url p = Some t -> is_Some (parser_parse w (strftime_Ymd t)).
Proof.
  unfold pr_commit_time.
  destruct (gh_pr_commits w repo_url (k_id p)) as [[|c cs]|] eqn:Hcs; try done.
  intros [= <-]. apply (wb_commit_dates _ _ Hw _ _ _ _ Hcs).
  apply dt_max_from_greatest.
Qed.

Lemma latest_commit_step_total repo_url h acc p :
  exists r, latest_commit_step w repo_url h acc (Some p) = Ok r.
Proof.
  unfold latest_commit_step. simpl.
  destruct (String.eqb (Str.lower (k_author p)) h); [|by eexists].
  unfold get_latest_commit_time.
  destruct (gh_pr_commits w repo_url (k_id p)) as [[|c cs]|] eqn:Hcs; simpl.
  - by destruct (wb_commits _ _ Hw _ _ Hcs).
  - destruct acc; by eexists.
  - by eexists.
Qed.

Lemma latest_commit_loop_total repo_url h prs acc :
  exists r, for_each (latest_commit_step w repo_url h) (Some <$> prs) acc = Ok r.
Proof.
  revert acc. induction prs as [|p prs IH]; intros acc; [by eexists|].
  rewrite fmap_cons, for_each_cons.
  destruct (latest_commit_step_total repo_url h acc p) as [r ->]. apply IH.
Qed.

Lemma latest_commit_reads_back repo_url h prs t :
  for_each (latest_commit_step w repo_url h) (Some <$> prs) None = Ok (Some t) ->
  is_Some (parser_parse w (strftime_Ymd t)).
Proof.
  intros [Hin _]%latest_commit_loop. unfold found_times in Hin.
  apply list_elem_of_omap in Hin as (p & _ & Hp). by eapply pr_commit_time_reads_back.
Qed.

Lemma attended_step_total names_dict e target_files launched_str prs st item :
  date_ok w launched_str -> date_ok w (st_date_str st) ->
  item.1 ∈ Dict.keys names_dict ->
  exists st',
    attended_step w names_dict e target_files launched_str (Some <$> prs) st item = Ok st'
    /\ date_ok w (st_date_str st').
Proof.
  intros Hl Hd [name Hname]%dict_get_Some_keys. destruct item as [h files].
  unfold attended_step, Dict.item. simpl in Hname. rewrite Hname. simpl.
  destruct (latest_commit_loop_total (e_repo_url e) h prs None) as [latest Hlatest].
  rewrite Hlatest. simpl.
  set (td := match latest with
             | Some t => (strftime_HMS t, strftime_Ymd t)
             | None => (st_time_str st, st_date_str st)
             end).
  assert (Htd : date_ok w td.2).
  { unfold td. destruct latest as [t|]; [|done]. right. simpl.
    by eapply latest_commit_reads_back. }
  destruct td as [t0 d0].
  destruct (enforce_constraints_total w t0 d0 launched_str Hl Htd) as (t & d & -> & Hdate).
  simpl. by eexists.
Qed.

Lemma attended_loop_total names_dict e target_files launched_str prs items st :
  date_ok w launched_str -> date_ok w (st_date_str st) ->
  Forall (fun item => item.1 ∈ Dict.keys names_dict) items ->
  exists st',
    for_each (attended_step w names_dict e target_files launched_str (Some <$> prs))
      items st = Ok st'.
Proof.
  intros Hl Hd Hitems. revert st Hd.
  induction Hitems as [|item items Hitem _ IH]; intros st Hd; [by eexists|].
  simpl.
  destruct (attended_step_total names_dict e target_files launched_str prs st item)
    as (st1 & -> & Hd1); [done..|].
  simpl. by apply IH.
Qed.

Lemma entry_launched_str_ok e :
  e ∈ feed -> processed e -> date_ok w (entry_launched_str w e).
Proof.
  intros He Hp. unfold entry_launched_str.
  destruct (String.eqb (e_date e) EmptyString); [by left|].
  destruct (parser_parse w (e_date e)) as [d|] eqn:Hd; [|by left].
  right. by apply (wb_launch_dates _ _ Hw e).
Qed.

Lemma entry_repo_date e :
  e ∈ feed -> processed e ->
  exists repo_date,
    (if negb (String.eqb (e_date e) EmptyString) then
       match parser_parse w (e_date e) with
       | Some d => Ok (Some (astimezone_india w d))
       | None => Raise ParserError
       end
     else Ok None) = Ok repo_date /\
    match repo_date with Some d => strftime_Ymd d | None => "N/A" end
    = entry_launched_str w e.
Proof.
  intros He Hp. unfold entry_launched_str.
  destruct (String.eqb_spec (e_date e) EmptyString) as [Hdate|Hdate]; [by eexists|].
  destruct (wb_feed_dates _ _ Hw e He Hp) as [|[d ->]]; [done|]. by eexists.
Qed.

Lemma attended_keys_in_roster auth pr_list apf :
  for_each (accumulate_pr auth) pr_list [] = Ok apf ->
  Forall (fun item : string * list string => item.1 ∈ auth) apf.
Proof.
  intros (prs & _ & _ & Hget)%accumulate_loop.
  apply Forall_forall. intros [h files] Hin.
  assert (Hh : h ∈ Dict.keys apf) by (apply list_elem_of_fmap; by exists (h, files)).
  apply dict_get_Some_keys in Hh. rewrite Hget in Hh.
  destruct (decide _) as [[Hauth _]|]; [done | by destruct Hh].
Qed.

Lemma process_entry_total names_dict state e :
  e ∈ feed -> exists state', process_entry w names_dict state e = Ok state'.
Proof.
  intros He. destruct (skipped e) eqn:Hskip.
  { rewrite process_entry_skipped by done. by eexists. }
  destruct state as [disk output_data]. unfold process_entry. rewrite Hskip.
  destruct (clone_repo_returns w (e_repo_url e) disk (wb_git _ _ Hw e He Hskip))
    as [disk' ->]. cbn [mbind result_bind].
  destruct (entry_repo_date e He Hskip) as (repo_date & -> & Hl). simpl. rewrite Hl.
  destruct (Forall_is_Some_fmap _ (wb_pr_list _ _ Hw e He Hskip)) as [prs ->].
  destruct (accumulate_loop_total (list_to_set (Dict.keys names_dict)) prs [])
    as [apf Hacc].
  rewrite Hacc. simpl.
  edestruct (attended_loop_total names_dict e) as [st ->]; [| |  |by eexists].
  - by apply entry_launched_str_ok.
  - by left.
  - eapply Forall_impl; [by eapply attended_keys_in_roster|].
    intros item Hitem. by apply elem_of_list_to_set in Hitem.
Qed.

Lemma run_total names_dict entries state :
  (forall e, e ∈ entries -> e ∈ feed) ->
  exists state', for_each (process_entry w names_dict) entries state = Ok state'.
Proof.
  revert state. induction entries as [|e entries IH]; intros state Hsub.
  - by eexists.
  - rewrite for_each_cons. destruct (process_entry_total names_dict state e) as [state1 ->].
    { apply Hsub. by left. }
    cbn [mbind result_bind]. apply IH. intros e' He'. apply Hsub. by right.
Qed.

(** In a well-behaved world the run returns, and it publishes rows unless the
    feed is empty. *)
Lemma prepare_and_send_data_returns names_file :
  feed ≠ [] ->
  exists rows, prepare_and_send_data w names_file feed = Ok (Some rows).
Proof.
  intros Hne. unfold prepare_and_send_data.
  destruct (run_total (load_names_from_file names_file) feed (working_copies w, []))
    as [state Hstate]; [done|].
  destruct feed as [|e l]; [done|]. rewrite Hstate. by eexists.
Qed.

End total.

(** ** The concrete worlds are well behaved *)

Lemma digit_val_lt c x : digit_val c = Some x -> x < 10.
Proof.
  unfold digit_val. destruct (_ && _)%bool eqn:Hc; [|done].
  intros [= <-]. apply andb_true_iff in Hc as [_ Hc%Nat.leb_le]. lia.
Qed.

Lemma number2_lt a b n : number2 a b = Some n -> n < 100.
Proof.
  unfold number2. destruct (digit_val a) as [x|] eqn:Ha; [|done].
  destruct (digit_val b) as [y|] eqn:Hb; [|done]. simpl. intros [= <-].
  apply digit_val_lt in Ha, Hb. lia.
Qed.

Lemma parse_ymd_valid s d : parse_ymd s = Some d -> dt_valid d.
Proof.
  unfold parse_ymd.
  destruct s as [|y1 [|y2 [|y3 [|y4 [|c1 [|m1 [|m2 [|c2 [|d1 [|d2 [|? ?]]]]]]]]]]]; try done.
  all: try (destruct c1 as [[] [] [] [] [] [] [] []]; try done).
  all: try (destruct c2 as [[] [] [] [] [] [] [] []]; try done).
  destruct (number2 y1 y2) as [yh|] eqn:Hyh; [|done].
  destruct (number2 y3 y4) as [yl|] eqn:Hyl; [|done].
  destruct (number2 m1 m2) as [m|] eqn:Hm; [|done].
  destruct (number2 d1 d2) as [dd|] eqn:Hdd; [|done]. cbn [mbind option_bind].
  destruct (_ && _)%bool eqn:Hc; [|done]. intros [= <-].
  repeat (apply andb_true_iff in Hc as [Hc ?%Nat.leb_le]). apply Nat.leb_le in Hc.
  apply number2_lt in Hyh, Hyl. unfold dt_valid.
  cbn [year month day hour minute second microsecond]. lia.
Qed.

(** The hypotheses of the lemmas on runs that do not raise hold of the worlds
    of the examples. *)
Lemma demo_well_behaved : well_behaved Demo.w2 Demo.feed.
Proof.
  split.
  - intros e _ _. done.
  - intros e _ _. simpl. repeat constructor; by eexists.
  - intros e ->%list_elem_of_singleton _. right. by eexists.
  - intros url id. simpl. by destruct (id =? 7)%Z.
  - intros url id cs c.
    change (gh_pr_commits Demo.w2 url id)
      with (if (id =? 7)%Z then Some [mkDatetime 2024 1 12 22 15 0 0] else None).
    destruct (id =? 7)%Z; [|done].
    intros [= <-] ->%list_elem_of_singleton. eexists. vm_compute. reflexivity.
  - intros e d ->%list_elem_of_singleton _ Hd. vm_compute in Hd. injection Hd as <-.
    eexists. vm_compute. reflexivity.
Qed.

(** ** One row for each handle and entry *)

(** C1. The handles of the roster are pairwise different.  In the rows a run
    publishes, every processed entry of the feed has its own group of rows,
    in the order of the feed, and the rows of a group are those of the
    handles of the roster, one row for each handle.  The row of a handle
    carries the display name of the handle and the fields of the entry, the
    target files being those found on the disk the entry has cloned into; it
    reports Not Done, score 0 and no date when the handle has no submission
    for the entry, else the merged files of its submissions, in some order,
    with their status and its score.  A run in a well-behaved world does
    publish rows. *)
Theorem one_row_per_handle_and_entry (w : World) (names_file : option string)
    (feed : list entry) :
  let names_dict := load_names_from_file names_file in
  NoDup (Dict.keys names_dict) /\
  (forall rows,
     prepare_and_send_data w names_file feed = Ok (Some rows) ->
     exists chunks,
       rows = concat chunks /\
       Forall2 (rows_of_entry w names_dict) (on_disk w (working_copies w) feed) chunks) /\
  (forall disk, (on_disk w disk feed).*2 = filter processed feed) /\
  (well_behaved w feed -> feed ≠ [] ->
   exists rows, prepare_and_send_data w names_file feed = Ok (Some rows)).
Proof.
  intros names_dict. split; [apply load_names_NoDup|]. split; [|split].
  - intros rows Hrun. by apply published_rows.
  - intros disk. apply on_disk_entries.
  - intros Hw Hne. by apply prepare_and_send_data_returns.
Qed.

Lemma one_row_per_handle_and_entry_witness :
  exists rows chunks,
    prepare_and_send_data Demo.w2 (Some Demo.roster) Demo.feed = Ok (Some rows) /\
    rows = concat chunks /\
    Forall2 (rows_of_entry Demo.w2 (load_names_from_file (Some Demo.roster)))
      (on_disk Demo.w2 (working_copies Demo.w2) Demo.feed) chunks.
Proof.
  destruct (one_row_per_handle_and_entry Demo.w2 (Some Demo.roster) Demo.feed)
    as (_ & Hrows & _ & Hruns).
  destruct (Hruns demo_well_behaved) as [rows Hrun]; [discriminate|].
  destruct (Hrows rows Hrun) as (chunks & Hconcat & Hchunks).
  exists rows, chunks. split; [exact Hrun|]. split; [exact Hconcat | exact Hchunks].
Defined.

(** * Further properties of the code *)

(** ** Splitting and stripping *)

Lemma append_empty_l s : EmptyString +:+ s = s.
Proof. reflexivity. Qed.

Lemma append_String c s1 s2 : String c s1 +:+ s2 = String c (s1 +:+ s2).
Proof. reflexivity. Qed.

Lemma string_forallb_app p s1 s2 :
  string_forallb p (s1 +:+ s2) = string_forallb p s1 && string_forallb p s2.
Proof. induction s1 as [|c s1 IH]; simpl; [done|]. by rewrite IH, andb_assoc. Qed.

Lemma split_nonempty sep s : Str.split sep s ≠ [].
Proof.
  destruct s as [|c s]; simpl; [done|].
  destruct (Ascii.eqb c sep); [done|]. by destruct (Str.split sep s).
Qed.

(** No piece of a split holds the separator. *)
Lemma split_pieces_no_sep sep s :
  Forall (fun x => string_forallb (fun c => negb (Ascii.eqb sep c)) x = true)
    (Str.split sep s).
Proof.
  induction s as [|c s IH]; simpl.
  - by constructor.
  - destruct (Ascii.eqb_spec c sep) as [->|Hne].
    + by constructor.
    + destruct (Str.split sep s) as [|w ws] eqn:Hsp; [by destruct (split_nonempty sep s)|].
      apply Forall_cons in IH as [Hw Hws]. constructor; [|done]. simpl. rewrite Hw.
      by destruct (Ascii.eqb_spec sep c) as [->|].
Qed.

(** A string without separator is its only piece. *)
Lemma split_no_sep sep s :
  string_forallb (fun c => negb (Ascii.eqb sep c)) s = true -> Str.split sep s = [s].
Proof.
  induction s as [|c s IH]; simpl; [done|].
  intros [Hc Hs]%andb_true_iff. rewrite (IH Hs).
  destruct (Ascii.eqb_spec c sep) as [->|]; [|done].
  by rewrite Ascii.eqb_refl in Hc.
Qed.

(** The pieces of a string with a separator in the middle are the pieces of
    the two sides. *)
Lemma split_app_sep sep s1 s2 :
  Str.split sep (s1 +:+ String sep s2) = Str.split sep s1 ++ Str.split sep s2.
Proof.
  induction s1 as [|c s1 IH].
  - rewrite append_empty_l. simpl. by rewrite Ascii.eqb_refl.
  - rewrite append_String. simpl. rewrite IH. destruct (Ascii.eqb c sep); [done|].
    destruct (Str.split sep s1) as [|w ws] eqn:Hs; [by destruct (split_nonempty sep s1)|].
    done.
Qed.

Lemma rstrip_by_app p s1 s2 :
  Str.rstrip_by p (s1 +:+ s2)
  = match Str.rstrip_by p s2 with
    | EmptyString => Str.rstrip_by p s1
    | r => s1 +:+ r
    end.
Proof.
  induction s1 as [|c s1 IH].
  - rewrite append_empty_l. by destruct (Str.rstrip_by p s2).
  - rewrite append_String. simpl. rewrite IH.
    destruct (Str.rstrip_by p s2) as [|c2 r2]; [done|]. by destruct s1.
Qed.

(** Nothing is stripped from a string no character of which is in the class. *)
Lemma rstrip_by_none p s :
  string_forallb (fun c => negb (p c)) s = true -> Str.rstrip_by p s = s.
Proof.
  induction s as [|c s IH]; simpl; [done|].
  intros [Hc Hs]%andb_true_iff. rewrite (IH Hs).
  destruct s; [|done]. by destruct (p c).
Qed.

Lemma rstrip_by_idemp p s : Str.rstrip_by p (Str.rstrip_by p s) = Str.rstrip_by p s.
Proof.
  induction s as [|c s IH]; simpl; [done|].
  destruct (Str.rstrip_by p s) as [|c' r] eqn:Hr.
  - destruct (p c) eqn:Hc; simpl; [done|]. by rewrite Hc.
  - simpl in *. by rewrite IH.
Qed.

(** ** The directory of a repository: [sanitize_repo_name] *)

Lemma re_sub_invalid_valid s : valid_dir_name (re_sub_invalid s).
Proof.
  unfold valid_dir_name. induction s as [|c s IH]; simpl; [done|].
  rewrite IH, andb_true_r.
  by destruct (invalid_dir_char c) eqn:Hc; [|rewrite Hc].
Qed.

Lemma re_sub_invalid_id s : valid_dir_name s -> re_sub_invalid s = s.
Proof.
  unfold valid_dir_name. induction s as [|c s IH]; simpl; [done|].
  intros [Hc Hs]%andb_true_iff. rewrite (IH Hs).
  by destruct (invalid_dir_char c).
Qed.

Lemma valid_no_slash s : valid_dir_name s -> no_slash s.
Proof.
  unfold valid_dir_name, no_slash. induction s as [|c s IH]; [done|].
  cbn [string_forallb]. intros [Hc Hs]%andb_true_iff. rewrite (IH Hs), andb_true_r.
  destruct (Ascii.eqb_spec "/" c) as [<-|]; [|done]. by vm_compute in Hc.
Qed.

Lemma sanitize_repo_name_of_segment s :
  no_slash s -> sanitize_repo_name s = re_sub_invalid s.
Proof.
  intros Hs. unfold sanitize_repo_name, Str.rstrip_slash.
  rewrite rstrip_by_none by done. by rewrite split_no_sep.
Qed.

(** X1. The directory name of a repository holds none of the characters that
    are replaced, the slash among them, and it is its own directory name:
    sanitizing twice is sanitizing once. *)
Theorem sanitize_repo_name_valid_idempotent (repo_url : string) :
  valid_dir_name (sanitize_repo_name repo_url) /\
  no_slash (sanitize_repo_name repo_url) /\
  sanitize_repo_name (sanitize_repo_name repo_url) = sanitize_repo_name repo_url.
Proof.
  assert (Hv : valid_dir_name (sanitize_repo_name repo_url)) by apply re_sub_invalid_valid.
  split; [done|]. split; [by apply valid_no_slash|].
  rewrite sanitize_repo_name_of_segment by (by apply valid_no_slash).
  by apply re_sub_invalid_id.
Qed.

(** X2. The directory name depends on the last segment of the URL alone: a
    slash at the end of the URL is ignored, and for a non-empty name without
    slash, whatever comes before its slash, the directory is that of the
    name.  Two repositories of the same name, of whatever owners, share a
    directory. *)
Theorem sanitize_repo_name_last_segment (prefix name : string) :
  name ≠ EmptyString -> no_slash name ->
  sanitize_repo_name (prefix +:+ String "/" name) = re_sub_invalid name /\
  sanitize_repo_name ((prefix +:+ String "/" name) +:+ "/") = re_sub_invalid name /\
  forall owner, sanitize_repo_name (owner +:+ String "/" name)
                = sanitize_repo_name (prefix +:+ String "/" name).
Proof.
  intros Hne Hname.
  assert (Hlast : forall p, sanitize_repo_name (p +:+ String "/" name) = re_sub_invalid name).
  { intros p. unfold sanitize_repo_name, Str.rstrip_slash.
    rewrite rstrip_by_app. simpl. rewrite rstrip_by_none by done.
    destruct name as [|c name']; [done|].
    by rewrite split_app_sep, (split_no_sep "/" (String c name')), last_last. }
  split; [apply Hlast|]. split; [|intros owner; by rewrite !Hlast].
  rewrite <- (Hlast prefix). unfold sanitize_repo_name, Str.rstrip_slash.
  by rewrite (rstrip_by_app _ (prefix +:+ String "/" name) "/").
Qed.

Lemma sanitize_repo_name_last_segment_witness :
  "hw1" ≠ EmptyString /\ no_slash "hw1" /\
  sanitize_repo_name "https://github.com/alice/hw1"
  = sanitize_repo_name "https://github.com/bob/hw1".
Proof.
  assert (H1 : "hw1" ≠ EmptyString) by discriminate.
  assert (H2 : no_slash "hw1") by reflexivity.
  split; [exact H1|]. split; [exact H2|].
  exact (proj2 (proj2 (sanitize_repo_name_last_segment "https://github.com/bob" "hw1" H1 H2))
           "https://github.com/alice").
Defined.

(** ** The list of pull requests: [get_pr_list] and [get_pr_details] *)

Lemma dict_set_absent {V : Type} k (v : V) d :
  Dict.get k d = None -> Dict.set k v d = d ++ [(k, v)].
Proof.
  induction d as [|[k1 v1] d IH]; simpl; [done|].
  destruct (String.eqb k1 k); [done|]. intros Hd. by rewrite IH.
Qed.

Lemma dict_set_present {V : Type} k (v0 : V) d :
  Dict.get k d = Some v0 ->
  exists d1 d2, d = d1 ++ (k, v0) :: d2 /\ forall v, Dict.set k v d = d1 ++ (k, v) :: d2.
Proof.
  induction d as [|[k1 v1] d IH]; simpl; [done|].
  destruct (String.eqb_spec k1 k) as [->|Hne].
  - intros [= ->]. by exists [], d.
  - intros (d1 & d2 & -> & Hset)%IH. exists ((k1, v1) :: d1), d2.
    split; [done|]. intros v. by rewrite Hset.
Qed.

Lemma insert_desc_perm x l : Adapter.insert_desc x l ≡ₚ x :: l.
Proof.
  induction l as [|y l IH]; simpl; [done|].
  destruct (dt_gtb _ _); [|done]. rewrite IH. apply Permutation_swap.
Qed.

Lemma sort_desc_perm l : Adapter.sort_desc l ≡ₚ l.
Proof.
  unfold Adapter.sort_desc. induction l as [|x l IH]; simpl; [done|].
  by rewrite insert_desc_perm, IH.
Qed.

Lemma grouped_ids_app d1 d2 : grouped_ids (d1 ++ d2) = grouped_ids d1 ++ grouped_ids d2.
Proof. unfold grouped_ids, Dict.items. apply flat_map_app. Qed.

Lemma grouped_ids_cons k ids c d : grouped_ids ((k, (ids, c)) :: d) = ids ++ grouped_ids d.
Proof. done. Qed.

Lemma group_step_ids d pr :
  grouped_ids (Adapter.group_step d pr) ≡ₚ grouped_ids d ++ [Adapter.number pr].
Proof.
  unfold Adapter.group_step.
  destruct (Dict.get (Adapter.login pr) d) as [[ids created]|] eqn:Hget.
  - apply dict_set_present in Hget as (d1 & d2 & -> & Hset). rewrite Hset.
    rewrite !grouped_ids_app, !grouped_ids_cons, <- !app_assoc.
    apply Permutation_app_head, Permutation_app_head, Permutation_app_comm.
  - rewrite dict_set_absent by done.
    by rewrite grouped_ids_app, grouped_ids_cons, app_nil_r.
Qed.

Lemma fold_group_step_ids l d :
  grouped_ids (fold_left Adapter.group_step l d) ≡ₚ grouped_ids d ++ (Adapter.number <$> l).
Proof.
  revert d. induction l as [|pr l IH]; intros d; simpl.
  - by rewrite app_nil_r.
  - rewrite IH, group_step_ids, <- app_assoc. done.
Qed.

Lemma flat_map_details {A : Type} (f : Z -> A) (d : Dict.t (list Z * datetime)) :
  flat_map (fun '(_, (ids, _)) => f <$> ids) (Dict.items d) = f <$> grouped_ids d.
Proof.
  unfold grouped_ids, Dict.items. induction d as [|[k [ids c]] d IH]; simpl; [done|].
  by rewrite IH, fmap_app.
Qed.

Lemma get_pr_list_details gh repo_url listed :
  Adapter.check_gh_command gh = true ->
  Adapter.pr_list_cmd gh repo_url = Some listed ->
  Adapter.get_pr_list gh repo_url
  = Adapter.get_pr_details gh repo_url
      <$> grouped_ids (fold_left Adapter.group_step (Adapter.sort_desc listed) []).
Proof.
  intros Hgh Hlist. unfold Adapter.get_pr_list.
  rewrite Hgh, Hlist. apply flat_map_details.
Qed.

Lemma grouped_ids_listed listed :
  grouped_ids (fold_left Adapter.group_step (Adapter.sort_desc listed) [])
  ≡ₚ Adapter.number <$> listed.
Proof. rewrite fold_group_step_ids. simpl. by rewrite sort_desc_perm. Qed.

(** X3. When [gh] is there and lists the pull requests of a repository,
    [get_pr_list] asks for the details of every listed pull request exactly
    once: its result is the list of the details of the listed numbers, in
    some order, and is as long as the list [gh] printed. *)
Theorem get_pr_list_views_each_listed_once (gh : Adapter.Gh) (repo_url : string)
    (listed : list Adapter.pr_summary) :
  Adapter.check_gh_command gh = true ->
  Adapter.pr_list_cmd gh repo_url = Some listed ->
  length (Adapter.get_pr_list gh repo_url) = length listed /\
  exists ids,
    ids ≡ₚ Adapter.number <$> listed /\
    Adapter.get_pr_list gh repo_url = Adapter.get_pr_details gh repo_url <$> ids.
Proof.
  intros Hgh Hlist. rewrite (get_pr_list_details gh repo_url listed Hgh Hlist). split.
  - rewrite length_fmap, (Permutation_length (grouped_ids_listed listed)).
    apply length_fmap.
  - eexists. split; [apply grouped_ids_listed | done].
Qed.

Lemma get_pr_list_views_each_listed_once_witness :
  Adapter.check_gh_command DemoGh.gh = true /\
  Adapter.pr_list_cmd DemoGh.gh DemoGh.url = Some DemoGh.listed /\
  exists ids,
    ids ≡ₚ [7; 8; 9]%Z /\
    Adapter.get_pr_list DemoGh.gh DemoGh.url
    = Adapter.get_pr_details DemoGh.gh DemoGh.url <$> ids.
Proof.
  split; [reflexivity|]. split; [reflexivity|].
  exact (proj2 (get_pr_list_views_each_listed_once DemoGh.gh DemoGh.url DemoGh.listed
                  eq_refl eq_refl)).
Defined.

Example get_pr_list_example :
  k_id <$> omap id (Adapter.get_pr_list DemoGh.gh DemoGh.url) = [9; 7; 8]%Z /\
  k_files <$> omap id (Adapter.get_pr_list DemoGh.gh DemoGh.url)
  = [["Util.java"]; ["Main.java"]; ["Main.java"; "README.md"]].
Proof. split; vm_compute; reflexivity. Qed.

Lemma Forall_List_last {A : Type} (P : A -> Prop) l d :
  P d -> Forall P l -> P (List.last l d).
Proof.
  intros Hd. induction 1 as [|x l Hx Hl IH]; simpl; [done|]. by destruct l.
Qed.

Lemma basename_no_slash path : no_slash (Adapter.basename path).
Proof.
  unfold Adapter.basename. apply Forall_List_last; [done|].
  apply split_pieces_no_sep.
Qed.

Lemma basename_last_segment dir name :
  no_slash name -> Adapter.basename (dir +:+ String "/" name) = name.
Proof.
  intros Hname. unfold Adapter.basename.
  by rewrite split_app_sep, (split_no_sep "/" name), last_last.
Qed.

(** X4. The files of the details of a pull request are base names: none
    holds a slash, and a changed path [dir/name] counts as the file [name],
    so that a target file is found in whatever directory it was changed. *)
Theorem changed_files_are_base_names (gh : Adapter.Gh) (repo_url : string) (pr_id : Z)
    (v : Adapter.pr_view) :
  Adapter.check_gh_command gh = true ->
  Adapter.pr_view_cmd gh repo_url pr_id = Some v ->
  exists p,
    Adapter.get_pr_details gh repo_url pr_id = Some p /\
    k_id p = pr_id /\
    Forall no_slash (k_files p) /\
    forall dir name,
      no_slash name -> dir +:+ String "/" name ∈ Adapter.paths v ->
      name ∈ k_files p /\ determine_status (k_files p) [name] = "Done".
Proof.
  intros Hgh Hview. unfold Adapter.get_pr_details.
  rewrite Hgh, Hview. simpl. eexists. split; [done|]. split; [done|]. simpl. split.
  - apply Forall_fmap, Forall_forall. intros path _. apply basename_no_slash.
  - intros dir name Hname Hin.
    assert (Hfile : name ∈ Adapter.basename <$> Adapter.paths v).
    { apply list_elem_of_fmap. eexists. split; [|exact Hin].
      by rewrite basename_last_segment. }
    split; [done|]. apply determine_status_Done, lowered_subseteq.
    intros t ->%list_elem_of_singleton. by exists name.
Qed.

Lemma changed_files_are_base_names_witness :
  exists p,
    Adapter.get_pr_details DemoGh.gh DemoGh.url 7 = Some p /\
    k_files p = ["Main.java"] /\
    determine_status (k_files p) ["Main.java"] = "Done".
Proof.
  destruct (changed_files_are_base_names DemoGh.gh DemoGh.url 7 _ eq_refl eq_refl)
    as (p & Hp & _ & _ & Hdir).
  exists p. split; [exact Hp|].
  split; [by injection Hp as <-|].
  apply (Hdir "src/main" "Main.java"); [reflexivity|].
  simpl. left.
Defined.

(** ** Failures of the command line in a run *)

Lemma non_attended_rows_all names_dict e target_files launched_str :
  non_attended_rows names_dict e target_files launched_str ∅
  = not_done_row e target_files launched_str <$> names_dict.*2.
Proof.
  unfold non_attended_rows, Dict.items.
  induction names_dict as [|[k v] d IH]; [done|].
  cbn [flat_map]. rewrite IH. done.
Qed.

Lemma process_entry_no_pull_request w names_dict disk disk' output_data e :
  skipped e = false ->
  clone_repo w (e_repo_url e) disk = Ok disk' ->
  e_date e = EmptyString \/ is_Some (parser_parse w (e_date e)) ->
  get_pr_list w (e_repo_url e) = [] ->
  process_entry w names_dict (disk, output_data) e
  = Ok (disk',
        output_data
        ++ (not_done_row e (entry_target_files disk' e) (entry_launched_str w e)
              <$> names_dict.*2)).
Proof.
  intros Hskip Hclone Hdate Hprs.
  unfold process_entry, entry_launched_str, entry_target_files.
  rewrite Hskip, Hclone, Hprs. cbn [mbind result_bind].
  destruct (String.eqb_spec (e_date e) EmptyString) as [Hd|Hd]; simpl.
  - by rewrite non_attended_rows_all.
  - destruct Hdate as [|[d ->]]; [done|]. simpl. by rewrite non_attended_rows_all.
Qed.

(** X5. When [gh] is not installed, or cannot list the pull requests of the
    repository of an entry, [get_pr_list] returns the empty list, and the
    entry, once its repository is cloned, appends one row for each member of
    the roster, in the order of the roster: the row carries the name of the
    member and the fields of the entry, and reports Not Done, score 0, no
    date, no files and no time.  The run goes on. *)
Theorem gh_failure_reports_all_not_done (gh : Adapter.Gh) (w : World)
    (names_dict : Dict.t string) (disk disk' : Disk) (output_data : list row) (e : entry) :
  processed e ->
  clone_repo w (e_repo_url e) disk = Ok disk' ->
  e_date e = EmptyString \/ is_Some (parser_parse w (e_date e)) ->
  Adapter.check_gh_command gh = false \/ Adapter.pr_list_cmd gh (e_repo_url e) = None ->
  Adapter.get_pr_list gh (e_repo_url e) = [] /\
  exists rows,
    process_entry (with_gh gh w) names_dict (disk, output_data) e
    = Ok (disk', output_data ++ rows) /\
    Forall2 (fun real_name r => row_of_entry w disk' e real_name r /\ reports_not_done r)
      names_dict.*2 rows.
Proof.
  intros Hp Hclone Hdate Hgh.
  assert (Hnil : Adapter.get_pr_list gh (e_repo_url e) = []).
  { unfold Adapter.get_pr_list.
    destruct Hgh as [->| ->]; [done|]. by destruct (Adapter.check_gh_command gh). }
  split; [done|]. eexists. split.
  - by apply (process_entry_no_pull_request (with_gh gh w)).
  - apply Forall2_fmap_r, Forall_Forall2_diag, Forall_forall. intros real_name _.
    by repeat split.
Qed.

Lemma gh_failure_reports_all_not_done_witness :
  processed Demo.hw1 /\
  exists rows,
    process_entry (with_gh DemoGh.gh_down Demo.w)
      (load_names_from_file (Some Demo.roster)) (∅, []) Demo.hw1
    = Ok (Demo.disk, rows) /\
    Name <$> rows = ["Alice A"; "Bob B"] /\
    Status <$> rows = ["Not Done"; "Not Done"] /\
    Score <$> rows = [0; 0]%Z.
Proof.
  assert (Hp : processed Demo.hw1) by reflexivity.
  assert (Hclone : clone_repo Demo.w (e_repo_url Demo.hw1) ∅ = Ok Demo.disk) by reflexivity.
  split; [exact Hp|].
  destruct (gh_failure_reports_all_not_done DemoGh.gh_down Demo.w
              (load_names_from_file (Some Demo.roster)) ∅ Demo.disk [] Demo.hw1 Hp
              Hclone (or_intror (ex_intro _ _ eq_refl)) (or_introl eq_refl))
    as (_ & rows & Hrun & Hrows).
  exists rows. split; [exact Hrun|].
  apply Forall2_cons_inv_l in Hrows
    as (r1 & rows1 & [(_ & Hn1 & _) (Hs1 & Hc1 & _)] & Hrows & ->).
  apply Forall2_cons_inv_l in Hrows
    as (r2 & rows2 & [(_ & Hn2 & _) (Hs2 & Hc2 & _)] & Hrows & ->).
  apply Forall2_nil_inv_l in Hrows as ->.
  cbn [fmap list_fmap]. by rewrite Hn1, Hn2, Hs1, Hs2, Hc1, Hc2.
Defined.

Lemma accumulate_loop_KeyError auth pr_list d :
  None ∈ pr_list -> for_each (accumulate_pr auth) pr_list d = Raise KeyError.
Proof.
  revert d. induction pr_list as [|pr pr_list IH]; intros d Hin.
  - by apply elem_of_nil in Hin.
  - rewrite for_each_cons. destruct pr as [p|]; [|done].
    destruct (accumulate_pr_total auth d p) as [d' ->]. simpl. apply IH.
    by apply elem_of_cons in Hin as [|].
Qed.

Lemma process_entry_KeyError w names_dict disk disk' output_data e :
  skipped e = false ->
  clone_repo w (e_repo_url e) disk = Ok disk' ->
  e_date e = EmptyString \/ is_Some (parser_parse w (e_date e)) ->
  None ∈ get_pr_list w (e_repo_url e) ->
  process_entry w names_dict (disk, output_data) e = Raise KeyError.
Proof.
  intros Hskip Hclone Hdate Hin. unfold process_entry. rewrite Hskip, Hclone.
  cbn [mbind result_bind].
  rewrite (accumulate_loop_KeyError _ _ _ Hin).
  destruct (String.eqb_spec (e_date e) EmptyString) as [Hd|Hd]; simpl; [done|].
  by destruct Hdate as [|[d ->]].
Qed.

Lemma process_entry_ParserError w names_dict disk disk' output_data e :
  skipped e = false ->
  clone_repo w (e_repo_url e) disk = Ok disk' ->
  e_date e ≠ EmptyString -> parser_parse w (e_date e) = None ->
  process_entry w names_dict (disk, output_data) e = Raise ParserError.
Proof.
  intros Hskip Hclone Hd Hparse. unfold process_entry. rewrite Hskip, Hclone, Hparse.
  by destruct (String.eqb_spec (e_date e) EmptyString).
Qed.

(** A loop one iteration of which raises, whatever the state, raises. *)
Lemma for_each_raises {A S : Type} (body : S -> A -> result S) (l : list A) (a : A) (s : S) :
  a ∈ l -> (forall s, exists x, body s a = Raise x) -> exists x, for_each body l s = Raise x.
Proof.
  intros Hin Hraise. revert s. induction l as [|b l IH]; intros s.
  - by apply elem_of_nil in Hin.
  - rewrite for_each_cons. apply elem_of_cons in Hin as [<-|Hin].
    + destruct (Hraise s) as [x ->]. by exists x.
    + destruct (body s b) as [s'|x]; simpl; [by apply IH | by exists x].
Qed.

Lemma run_raises w names_file feed e :
  e ∈ feed ->
  (forall names_dict state, exists x, process_entry w names_dict state e = Raise x) ->
  exists x, prepare_and_send_data w names_file feed = Raise x.
Proof.
  intros Hin Hraise. unfold prepare_and_send_data.
  destruct (for_each_raises (process_entry w (load_names_from_file names_file))
              feed e (working_copies w, []) Hin) as [x Hx]; [by intros s|].
  destruct feed as [|e0 feed']; [by apply elem_of_nil in Hin|].
  rewrite Hx. by exists x.
Qed.

(** X6. When [gh pr view] fails for one of the pull requests [gh pr list] has
    listed, the list [get_pr_list] returns holds an empty dictionary, the
    entry, once its repository is cloned, raises [KeyError] at
    [pr['author']], and the run publishes nothing, not even the rows of the
    other entries. *)
Theorem failed_pr_view_publishes_nothing (gh : Adapter.Gh) (w : World)
    (names_file : option string) (feed : list entry) (e : entry)
    (listed : list Adapter.pr_summary) (pr : Adapter.pr_summary) :
  e ∈ feed -> processed e ->
  Adapter.check_gh_command gh = true ->
  Adapter.pr_list_cmd gh (e_repo_url e) = Some listed ->
  pr ∈ listed ->
  Adapter.pr_view_cmd gh (e_repo_url e) (Adapter.number pr) = None ->
  None ∈ Adapter.get_pr_list gh (e_repo_url e) /\
  (forall names_dict disk disk' output_data,
     clone_repo w (e_repo_url e) disk = Ok disk' ->
     e_date e = EmptyString \/ is_Some (parser_parse w (e_date e)) ->
     process_entry (with_gh gh w) names_dict (disk, output_data) e = Raise KeyError) /\
  exists x, prepare_and_send_data (with_gh gh w) names_file feed = Raise x.
Proof.
  intros Hin Hp Hgh Hlist Hpr Hview.
  assert (Hnone : None ∈ Adapter.get_pr_list gh (e_repo_url e)).
  { rewrite (get_pr_list_details gh _ listed Hgh Hlist).
    apply list_elem_of_fmap. exists (Adapter.number pr). split.
    - unfold Adapter.get_pr_details. by rewrite Hgh, Hview.
    - rewrite grouped_ids_listed. by apply list_elem_of_fmap_2. }
  split; [done|]. split.
  - intros names_dict disk disk' output_data Hclone Hdate.
    by apply (process_entry_KeyError (with_gh gh w) _ disk disk').
  - apply (run_raises _ _ _ e Hin). intros names_dict [disk output_data].
    destruct (clone_repo (with_gh gh w) (e_repo_url e) disk) as [disk'|x] eqn:Hclone.
    2: { exists x. by apply process_entry_clone_raises. }
    destruct (String.eqb_spec (e_date e) EmptyString) as [Hd|Hd].
    + exists KeyError. apply (process_entry_KeyError _ _ disk disk'); [done..|by left|done].
    + destruct (parser_parse w (e_date e)) as [d|] eqn:Hparse.
      * exists KeyError. apply (process_entry_KeyError _ _ disk disk'); [done..| |done].
        right. by exists d.
      * exists ParserError. by apply (process_entry_ParserError _ _ disk disk').
Qed.

Lemma failed_pr_view_publishes_nothing_witness :
  Demo.hw1 ∈ Demo.feed /\ processed Demo.hw1 /\
  Adapter.pr_view_cmd DemoGh.gh_broken (e_repo_url Demo.hw1) 9 = None /\
  exists x,
    prepare_and_send_data (with_gh DemoGh.gh_broken Demo.w) (Some Demo.roster) Demo.feed
    = Raise x.
Proof.
  assert (Hin : Demo.hw1 ∈ Demo.feed) by left.
  assert (Hpr : Adapter.mkSummary 9 "Alice" (mkDatetime 2024 1 10 9 30 0 0) ∈ DemoGh.listed)
    by (do 2 right; left).
  split; [exact Hin|]. split; [reflexivity|]. split; [reflexivity|].
  exact (proj2 (proj2 (failed_pr_view_publishes_nothing DemoGh.gh_broken Demo.w
                         (Some Demo.roster) Demo.feed Demo.hw1 DemoGh.listed _
                         Hin eq_refl eq_refl eq_refl Hpr eq_refl))).
Defined.

(** X7. An entry whose date the parser rejects raises, [ParserError] once
    its repository is cloned, and the run publishes nothing, not even the
    rows of the other entries. *)
Theorem unparseable_date_publishes_nothing (w : World) (names_file : option string)
    (feed : list entry) (e : entry) :
  e ∈ feed -> processed e ->
  e_date e ≠ EmptyString -> parser_parse w (e_date e) = None ->
  (forall names_dict disk disk' output_data,
     clone_repo w (e_repo_url e) disk = Ok disk' ->
     process_entry w names_dict (disk, output_data) e = Raise ParserError) /\
  exists x, prepare_and_send_data w names_file feed = Raise x.
Proof.
  intros Hin Hp Hd Hparse. split.
  - intros names_dict disk disk' output_data Hclone.
    by apply (process_entry_ParserError _ _ disk disk').
  - apply (run_raises _ _ _ e Hin). intros names_dict [disk output_data].
    destruct (clone_repo w (e_repo_url e) disk) as [disk'|x] eqn:Hclone.
    + exists ParserError. by apply (process_entry_ParserError _ _ disk disk').
    + exists x. by apply process_entry_clone_raises.
Qed.

Lemma unparseable_date_publishes_nothing_witness :
  DemoGh.no_date ∈ [Demo.hw1; DemoGh.no_date] /\ processed DemoGh.no_date /\
  e_date DemoGh.no_date ≠ EmptyString /\
  parser_parse Demo.w (e_date DemoGh.no_date) = None /\
  exists x,
    prepare_and_send_data Demo.w (Some Demo.roster) [Demo.hw1; DemoGh.no_date] = Raise x.
Proof.
  assert (Hin : DemoGh.no_date ∈ [Demo.hw1; DemoGh.no_date]) by (right; left).
  assert (Hd : e_date DemoGh.no_date ≠ EmptyString) by discriminate.
  split; [exact Hin|]. split; [reflexivity|]. split; [exact Hd|]. split; [reflexivity|].
  exact (proj2 (unparseable_date_publishes_nothing Demo.w (Some Demo.roster)
                  [Demo.hw1; DemoGh.no_date] DemoGh.no_date Hin eq_refl Hd eq_refl)).
Defined.

(** ** The latest commit *)

(** X8. [get_latest_commit_time] returns nothing when [gh] fails, raises
    [ValueError] for a pull request without commit, and otherwise returns a
    date of the pull request that no date of it exceeds. *)
Theorem get_latest_commit_time_outcomes (w : World) (repo_url : string) (pr_id : Z) :
  match gh_pr_commits w repo_url pr_id with
  | None => get_latest_commit_time w repo_url pr_id = Ok None
  | Some [] => get_latest_commit_time w repo_url pr_id = Raise ValueError
  | Some (c :: cs) =>
      exists t,
        get_latest_commit_time w repo_url pr_id = Ok (Some t) /\
        t ∈ c :: cs /\ forall x, x ∈ c :: cs -> dt_gtb x t = false
  end.
Proof.
  unfold get_latest_commit_time.
  destruct (gh_pr_commits w repo_url pr_id) as [[|c cs]|]; [done| |done].
  exists (dt_max_from c cs). split; [done|]. apply dt_max_from_greatest.
Qed.

Lemma latest_commit_step_Some w repo_url h acc p :
  latest_commit_step w repo_url h acc (Some p)
  = if String.eqb (Str.lower (k_author p)) h then
      match gh_pr_commits w repo_url (k_id p) with
      | Some [] => Raise ValueError
      | Some (c :: cs) =>
          Ok (Some match acc with
                   | Some l => if dt_gtb (dt_max_from c cs) l then dt_max_from c cs else l
                   | None => dt_max_from c cs
                   end)
      | None => Ok acc
      end
    else Ok acc.
Proof.
  unfold latest_commit_step, get_latest_commit_time. simpl.
  destruct (String.eqb (Str.lower (k_author p)) h); [|done].
  destruct (gh_pr_commits w repo_url (k_id p)) as [[|c cs]|]; simpl; [done| |done].
  by destruct acc.
Qed.

Lemma submissions_cons h p prs :
  submissions h (p :: prs)
  = if String.eqb (Str.lower (k_author p)) h then p :: submissions h prs
    else submissions h prs.
Proof.
  unfold submissions. destruct (String.eqb_spec (Str.lower (k_author p)) h).
  - by rewrite filter_cons_True.
  - by rewrite filter_cons_False.
Qed.

Lemma latest_commit_loop_ValueError w repo_url h prs acc :
  Exists (fun p => gh_pr_commits w repo_url (k_id p) = Some []) (submissions h prs) ->
  for_each (latest_commit_step w repo_url h) (Some <$> prs) acc = Raise ValueError.
Proof.
  revert acc. induction prs as [|p prs IH]; intros acc.
  - by intros ?%Exists_nil.
  - rewrite submissions_cons, fmap_cons, for_each_cons, latest_commit_step_Some.
    destruct (String.eqb (Str.lower (k_author p)) h); [|apply IH].
    intros [Hp|Hprs]%Exists_cons.
    + by rewrite Hp.
    + destruct (gh_pr_commits w repo_url (k_id p)) as [[|c cs]|]; [done|by apply IH..].
Qed.

Lemma latest_commit_loop_returns w repo_url h prs acc :
  Forall (fun p => gh_pr_commits w repo_url (k_id p) ≠ Some []) (submissions h prs) ->
  exists r, for_each (latest_commit_step w repo_url h) (Some <$> prs) acc = Ok r.
Proof.
  revert acc. induction prs as [|p prs IH]; intros acc.
  - by eexists.
  - rewrite submissions_cons, fmap_cons, for_each_cons, latest_commit_step_Some.
    destruct (String.eqb (Str.lower (k_author p)) h); [|apply IH].
    intros [Hp Hprs]%Forall_cons.
    destruct (gh_pr_commits w repo_url (k_id p)) as [[|c cs]|]; [done|by apply IH..].
Qed.

(** X9. The latest commit time of an author is a greatest of the times found
    for the pull requests of that author (in whatever case the login is
    written), and there is none when no query finds one; the search raises
    [ValueError] as soon as one of these pull requests has no commit. *)
Theorem latest_commit_of_author (w : World) (repo_url h : string)
    (prs : list pull_request) :
  let loop := for_each (latest_commit_step w repo_url h) (Some <$> prs) None in
  (Exists (fun p => gh_pr_commits w repo_url (k_id p) = Some []) (submissions h prs) ->
   loop = Raise ValueError) /\
  (Forall (fun p => gh_pr_commits w repo_url (k_id p) ≠ Some []) (submissions h prs) ->
   exists r,
     loop = Ok r /\
     match r with
     | Some t =>
         t ∈ found_times w repo_url h prs /\
         forall x, x ∈ found_times w repo_url h prs -> dt_gtb x t = false
     | None => found_times w repo_url h prs = []
     end).
Proof.
  intros loop. split.
  - apply latest_commit_loop_ValueError.
  - intros Hall. destruct (latest_commit_loop_returns w repo_url h prs None Hall) as [r Hr].
    exists r. split; [done|]. by apply latest_commit_loop.
Qed.

Lemma latest_commit_of_author_witness :
  Forall (fun p => gh_pr_commits Demo.w2 "url" (k_id p) ≠ Some [])
    (submissions "alice" [Demo.alice_pr; Demo.bob_pr]) /\
  exists r,
    for_each (latest_commit_step Demo.w2 "url" "alice")
      (Some <$> [Demo.alice_pr; Demo.bob_pr]) None = Ok r.
Proof.
  assert (H : Forall (fun p => gh_pr_commits Demo.w2 "url" (k_id p) ≠ Some [])
                (submissions "alice" [Demo.alice_pr; Demo.bob_pr])).
  { apply Forall_forall. intros p _. simpl. by destruct (k_id p =? 7)%Z. }
  split; [exact H|].
  destruct (proj2 (latest_commit_of_author Demo.w2 "url" "alice"
                     [Demo.alice_pr; Demo.bob_pr]) H) as (r & Hr & _).
  exists r. exact Hr.
Defined.

(** X10. When no commit time is found for an author, the row of the author
    carries the time and the date the loop holds from the authors before,
    passed through the enforcer once more; they are ['N/A'] only when those
    are. *)
Theorem time_and_date_without_commit_time (w : World) (names_dict : Dict.t string)
    (e : entry) (target_files : list string) (launched_str : string)
    (pr_list : list pr_details) (st st' : loop_state)
    (pr_author : string) (pr_files : list string) :
  for_each (latest_commit_step w (e_repo_url e) pr_author) pr_list None = Ok None ->
  attended_step w names_dict e target_files launched_str pr_list st (pr_author, pr_files)
  = Ok st' ->
  exists r,
    st_output_data st' = st_output_data st ++ [r] /\
    enforce_constraints w (st_time_str st) (st_date_str st) launched_str
    = Ok (Time r, default EmptyString (Date r)) /\
    st_time_str st' = Time r /\ Some (st_date_str st') = Date r /\
    (st_time_str st = "N/A" -> st_date_str st = "N/A" ->
     Time r = "N/A" /\ Date r = Some "N/A").
Proof.
  intros Hnone Hstep.
  unfold attended_step in Hstep. rewrite Hnone in Hstep.
  apply bind_Ok in Hstep as (real_name & _ & H). simpl in H.
  apply bind_Ok in H as ([t d] & Henf & [= <-]). simpl.
  eexists. split; [done|]. simpl. split; [done|]. split; [done|]. split; [done|].
  intros Ht Hd. rewrite Ht, Hd in Henf.
  rewrite enforce_constraints_cases in Henf. cbv zeta in Henf.
  change (clamped_time "N/A") with "N/A" in Henf.
  destruct (String.eqb launched_str "N/A"); [by injection Henf as <- <-|].
  destruct (parser_parse w launched_str); [|done]. by injection Henf as <- <-.
Qed.

Lemma time_and_date_without_commit_time_witness :
  let st := {| st_time_str := "21:00:00"; st_date_str := "2024-01-10";
               st_output_data := [] |} in
  let pr_list := [Some Demo.alice_pr; Some Demo.bob_pr] in
  for_each (latest_commit_step Demo.w2 (e_repo_url Demo.hw1) "bob") pr_list None = Ok None /\
  exists st' r,
    attended_step Demo.w2 (load_names_from_file (Some Demo.roster)) Demo.hw1
      ["Main.java"] "2024-01-10" pr_list st ("bob", ["Main.java"]) = Ok st' /\
    st_output_data st' = [r] /\
    enforce_constraints Demo.w2 "21:00:00" "2024-01-10" "2024-01-10"
    = Ok (Time r, default EmptyString (Date r)).
Proof.
  intros st pr_list.
  assert (Hnone : for_each (latest_commit_step Demo.w2 (e_repo_url Demo.hw1) "bob")
                    pr_list None = Ok None) by reflexivity.
  split; [exact Hnone|].
  assert (Hstep : exists st',
    attended_step Demo.w2 (load_names_from_file (Some Demo.roster)) Demo.hw1
      ["Main.java"] "2024-01-10" pr_list st ("bob", ["Main.java"]) = Ok st').
  { eexists. vm_compute. reflexivity. }
  destruct Hstep as [st' Hstep].
  destruct (time_and_date_without_commit_time _ _ _ _ _ _ _ _ _ _ Hnone Hstep)
    as (r & Hout & Henf & _).
  exists st', r. split; [exact Hstep|]. split; [exact Hout | exact Henf].
Defined.

(** ** The enforcer on its own results *)

Lemma clamped_time_cases t :
  clamped_time t = "N/A" /\ t = "N/A" \/
  clamped_time t ≠ "N/A" /\ Str.gtb (clamped_time t) "21:00:00" = false.
Proof.
  unfold clamped_time. destruct (String.eqb_spec t "N/A") as [->|Hne]; [by left|].
  right. destruct (Str.gtb t "21:00:00") eqn:Hgt; [|done].
  split; [discriminate | reflexivity].
Qed.

Lemma clamped_time_idemp t : clamped_time (clamped_time t) = clamped_time t.
Proof.
  destruct (clamped_time_cases t) as [[-> _]|[Hne Hgt]]; [reflexivity|].
  unfold clamped_time at 1. rewrite Hgt.
  by destruct (String.eqb (clamped_time t) "N/A").
Qed.

(** X11. The enforcer changes nothing in what it has returned: a second call
    on the time and the date of a first call, with the same launch date,
    returns them. *)
Theorem enforce_constraints_idempotent (w : World)
    (time_str date_str launched_str time_str' date_str' : string) :
  enforce_constraints w time_str date_str launched_str = Ok (time_str', date_str') ->
  enforce_constraints w time_str' date_str' launched_str = Ok (time_str', date_str').
Proof.
  rewrite !enforce_constraints_cases. cbv zeta.
  destruct (String.eqb_spec launched_str "N/A") as [Hl|Hl].
  { intros [= <- <-]. by rewrite clamped_time_idemp. }
  destruct (parser_parse w launched_str) as [max_date|] eqn:Hmax; [|done].
  destruct (String.eqb_spec date_str "N/A") as [Hd|Hd].
  { intros [= <- <-]. rewrite clamped_time_idemp.
    by destruct (String.eqb_spec date_str "N/A"). }
  destruct (parser_parse w date_str) as [date_obj|] eqn:Hobj; [|done].
  intros [= <- <-]. rewrite clamped_time_idemp.
  destruct (dt_gtb date_obj max_date) eqn:Hgt.
  - destruct (String.eqb_spec launched_str "N/A"); [done|].
    by rewrite Hmax, dt_gtb_irrefl.
  - destruct (String.eqb_spec date_str "N/A"); [done|]. by rewrite Hobj, Hgt.
Qed.

Lemma enforce_constraints_idempotent_witness :
  enforce_constraints Demo.w "22:15:00" "2024-01-12" "2024-01-10"
  = Ok ("21:00:00", "2024-01-10") /\
  enforce_constraints Demo.w "21:00:00" "2024-01-10" "2024-01-10"
  = Ok ("21:00:00", "2024-01-10").
Proof.
  assert (H : enforce_constraints Demo.w "22:15:00" "2024-01-12" "2024-01-10"
              = Ok ("21:00:00", "2024-01-10")) by reflexivity.
  split; [exact H|].
  exact (enforce_constraints_idempotent Demo.w _ _ _ _ _ H).
Defined.

(** X12. What the enforcer returns is within the bounds: the time is
    ['N/A'] (when it was) or a string not greater than ["21:00:00"], and when
    the launch date is known the date is ['N/A'] (when it was) or a date the
    parser does not read as later than the launch date. *)
Theorem enforce_constraints_bounds (w : World)
    (time_str date_str launched_str time_str' date_str' : string) :
  enforce_constraints w time_str date_str launched_str = Ok (time_str', date_str') ->
  (time_str' = "N/A" /\ time_str = "N/A" \/
   time_str' ≠ "N/A" /\ Str.gtb time_str' "21:00:00" = false) /\
  (launched_str = "N/A" /\ date_str' = date_str \/
   date_str' = "N/A" /\ date_str = "N/A" \/
   exists date_obj max_date,
     parser_parse w date_str' = Some date_obj /\
     parser_parse w launched_str = Some max_date /\
     dt_gtb date_obj max_date = false).
Proof.
  rewrite enforce_constraints_cases. cbv zeta.
  destruct (String.eqb_spec launched_str "N/A") as [Hl|Hl].
  { intros [= <- <-]. split; [apply clamped_time_cases | by left]. }
  destruct (parser_parse w launched_str) as [max_date|] eqn:Hmax; [|done].
  destruct (String.eqb_spec date_str "N/A") as [Hd|Hd].
  { intros [= <- <-]. split; [apply clamped_time_cases | by right; left]. }
  destruct (parser_parse w date_str) as [date_obj|] eqn:Hobj; [|done].
  intros [= <- <-]. split; [apply clamped_time_cases|]. right; right.
  destruct (dt_gtb date_obj max_date) eqn:Hgt.
  - exists max_date, max_date. by rewrite dt_gtb_irrefl.
  - by exists date_obj, max_date.
Qed.

Lemma enforce_constraints_bounds_witness :
  enforce_constraints Demo.w "22:15:00" "2024-01-12" "2024-01-10"
  = Ok ("21:00:00", "2024-01-10") /\
  exists date_obj max_date,
    parser_parse Demo.w "2024-01-10" = Some date_obj /\
    parser_parse Demo.w "2024-01-10" = Some max_date /\
    dt_gtb date_obj max_date = false.
Proof.
  assert (H : enforce_constraints Demo.w "22:15:00" "2024-01-12" "2024-01-10"
              = Ok ("21:00:00", "2024-01-10")) by reflexivity.
  split; [exact H|].
  destruct (proj2 (enforce_constraints_bounds Demo.w _ _ _ _ _ H))
    as [[Hna _]|[[Hna _]|Hbound]]; [discriminate Hna | discriminate Hna | exact Hbound].
Defined.

(** ** More on [determine_status] *)

(** X13. An empty list of target files is Done whatever was changed; and a
    status Done stays Done when files are added to the changed files or
    removed from the target files. *)
Theorem determine_status_monotone (pr_files pr_files' target_files target_files' : list string) :
  determine_status pr_files [] = "Done" /\
  ((forall f, f ∈ pr_files -> f ∈ pr_files') ->
   (forall t, t ∈ target_files' -> t ∈ target_files) ->
   determine_status pr_files target_files = "Done" ->
   determine_status pr_files' target_files' = "Done").
Proof.
  split.
  - apply determine_status_Done, lowered_subseteq. by intros t ?%elem_of_nil.
  - rewrite !determine_status_Done, !lowered_subseteq.
    intros Hpr Htg Hdone t Ht. destruct (Hdone t (Htg t Ht)) as (f & Hf & Heq).
    exists f. split; [by apply Hpr | done].
Qed.

Lemma determine_status_monotone_witness :
  determine_status ["Main.java"] ["main.java"; "MAIN.JAVA"] = "Done" /\
  determine_status ["README.md"; "Main.java"] ["MAIN.JAVA"] = "Done".
Proof.
  assert (H : determine_status ["Main.java"] ["main.java"; "MAIN.JAVA"] = "Done")
    by (vm_compute; reflexivity).
  split; [exact H|].
  refine (proj2 (determine_status_monotone ["Main.java"] ["README.md"; "Main.java"]
                   ["main.java"; "MAIN.JAVA"] ["MAIN.JAVA"]) _ _ H).
  - intros f Hf. by right.
  - intros t Ht. by right.
Defined.

(** ** The size of the report *)

Lemma rows_of_entry_length w names_dict de chunk :
  rows_of_entry w names_dict de chunk -> length chunk = length names_dict.
Proof.
  intros (handles & Hperm & Hrows).
  rewrite <- (Forall2_length _ _ _ Hrows), (Permutation_length Hperm).
  apply length_fmap.
Qed.

(** X14. A run publishes as many rows as there are members in the roster
    times processed entries in the feed; with a missing roster file it
    publishes the empty list. *)
Theorem published_row_count (w : World) (names_file : option string)
    (feed : list entry) (rows : list row) :
  prepare_and_send_data w names_file feed = Ok (Some rows) ->
  length rows
  = length (load_names_from_file names_file) * length (filter processed feed) /\
  (names_file = None -> rows = []).
Proof.
  intros (chunks & -> & Hchunks)%published_rows.
  assert (Hlen : length (concat chunks)
                 = length (load_names_from_file names_file)
                   * length (filter processed feed)).
  { rewrite <- (on_disk_entries w (working_copies w) feed), length_fmap.
    induction Hchunks as [|de chunk entries chunks Hchunk _ IH]; simpl; [lia|].
    rewrite length_app, IH, (rows_of_entry_length _ _ _ _ Hchunk). lia. }
  split; [done|]. intros ->. simpl in Hlen. by apply nil_length_inv.
Qed.

Lemma published_row_count_witness :
  exists rows,
    prepare_and_send_data Demo.w2 (Some Demo.roster) [Demo.hw1; Demo.no_repo; Demo.hw2]
    = Ok (Some rows) /\
    length rows = 4.
Proof.
  assert (Hrun : exists rows,
    prepare_and_send_data Demo.w2 (Some Demo.roster) [Demo.hw1; Demo.no_repo; Demo.hw2]
    = Ok (Some rows)) by (eexists; vm_compute; reflexivity).
  destruct Hrun as [rows Hrun]. exists rows. split; [exact Hrun|].
  exact (proj1 (published_row_count _ _ _ _ Hrun)).
Defined.

(** ** Pull requests of authors outside the roster *)

Lemma for_each_ext_in {A S : Type} (body1 body2 : S -> A -> result S) (l : list A) (s : S) :
  (forall s a, a ∈ l -> body1 s a = body2 s a) ->
  for_each body1 l s = for_each body2 l s.
Proof.
  revert s. induction l as [|a l IH]; intros s Hext; [done|].
  rewrite !for_each_cons, Hext by left. destruct (body2 s a); simpl; [|done].
  apply IH. intros s2 a2 Ha2. apply Hext. by right.
Qed.

Lemma accumulate_pr_stranger (auth : gset string) d p :
  Str.lower (k_author p) ∉ auth -> accumulate_pr auth d (Some p) = Ok d.
Proof. intros Hout. unfold accumulate_pr. simpl. by rewrite bool_decide_false. Qed.

Lemma accumulate_without_strangers names_dict pr_list d :
  for_each (accumulate_pr (list_to_set (Dict.keys names_dict)))
    (List.filter (of_roster names_dict) pr_list) d
  = for_each (accumulate_pr (list_to_set (Dict.keys names_dict))) pr_list d.
Proof.
  revert d. induction pr_list as [|pr pr_list IH]; intros d; [done|].
  cbn [List.filter]. destruct pr as [p|]; cbn [of_roster]; [|done].
  rewrite (for_each_cons _ (Some p) pr_list).
  destruct (bool_decide_reflect (Str.lower (k_author p) ∈ Dict.keys names_dict)) as [Hin|Hout].
  - rewrite for_each_cons. destruct (accumulate_pr _ d (Some p)); simpl; [apply IH | done].
  - rewrite accumulate_pr_stranger by (by rewrite elem_of_list_to_set). simpl. apply IH.
Qed.

Lemma latest_commit_without_strangers w names_dict repo_url h pr_list acc :
  h ∈ Dict.keys names_dict ->
  for_each (latest_commit_step w repo_url h) (List.filter (of_roster names_dict) pr_list) acc
  = for_each (latest_commit_step w repo_url h) pr_list acc.
Proof.
  intros Hh. revert acc. induction pr_list as [|pr pr_list IH]; intros acc; [done|].
  cbn [List.filter]. destruct pr as [p|]; cbn [of_roster]; [|done].
  rewrite (for_each_cons _ (Some p) pr_list).
  destruct (bool_decide_reflect (Str.lower (k_author p) ∈ Dict.keys names_dict)) as [Hin|Hout].
  - rewrite for_each_cons.
    destruct (latest_commit_step w repo_url h acc (Some p)); simpl; [apply IH | done].
  - rewrite latest_commit_step_Some.
    destruct (String.eqb_spec (Str.lower (k_author p)) h) as [Heq|Hne]; [by subst|].
    simpl. apply IH.
Qed.

Lemma process_entry_without_strangers w names_dict state e :
  process_entry (without_strangers names_dict w) names_dict state e
  = process_entry w names_dict state e.
Proof.
  unfold process_entry. destruct state as [disk output_data].
  destruct (skipped e); [done|].
  change (clone_repo (without_strangers names_dict w)) with (clone_repo w).
  destruct (clone_repo w (e_repo_url e) disk) as [disk'|x]; [|done].
  cbn [mbind result_bind].
  change (get_pr_list (without_strangers names_dict w) (e_repo_url e))
    with (List.filter (of_roster names_dict) (get_pr_list w (e_repo_url e))).
  change (parser_parse (without_strangers names_dict w)) with (parser_parse w).
  change (astimezone_india (without_strangers names_dict w)) with (astimezone_india w).
  destruct (if negb (String.eqb (e_date e) EmptyString)
            then match parser_parse w (e_date e) with
                 | Some d => Ok (Some (astimezone_india w d))
                 | None => Raise ParserError
                 end
            else Ok None) as [repo_date|x]; simpl; [|done].
  rewrite accumulate_without_strangers.
  destruct (for_each (accumulate_pr _) (get_pr_list w (e_repo_url e)) [])
    as [apf|x] eqn:Hacc; simpl; [|done].
  rewrite (for_each_ext_in
             (attended_step (without_strangers names_dict w) names_dict e _ _ _)
             (attended_step w names_dict e
                (select_target_files disk' (sanitize_repo_name (e_repo_url e))
                   (e_target_file e))
                match repo_date with Some d => strftime_Ymd d | None => "N/A" end
                (get_pr_list w (e_repo_url e)))); [done|].
  intros st [h files] Hin. unfold attended_step.
  destruct (Dict.item h names_dict); simpl; [|done].
  assert (Hh : h ∈ Dict.keys names_dict).
  { apply attended_keys_in_roster in Hacc.
    rewrite Forall_forall in Hacc. specialize (Hacc _ Hin).
    by apply elem_of_list_to_set in Hacc. }
  change (latest_commit_step (without_strangers names_dict w))
    with (latest_commit_step w).
  by rewrite latest_commit_without_strangers.
Qed.

(** X15. The pull requests of authors that are not in the roster change
    nothing: a run where [get_pr_list] leaves them out returns what the run
    with them returns, rows and exceptions alike. *)
Theorem strangers_change_nothing (w : World) (names_file : option string)
    (feed : list entry) :
  prepare_and_send_data (without_strangers (load_names_from_file names_file) w)
    names_file feed
  = prepare_and_send_data w names_file feed.
Proof.
  unfold prepare_and_send_data. destruct feed as [|e feed]; [done|].
  f_equal. apply for_each_ext_in. intros output_data e' _.
  apply process_entry_without_strangers.
Qed.

(** ** Stripped strings *)

Lemma lstrip_by_head_outside p s : head_outside p (Str.lstrip_by p s).
Proof.
  induction s as [|c s IH]; simpl; [done|]. by destruct (p c) eqn:Hc.
Qed.

Lemma head_outside_lstrip_by p s : head_outside p s -> Str.lstrip_by p s = s.
Proof. destruct s as [|c s]; simpl; [done|]. by intros ->. Qed.

Lemma rstrip_by_head_outside p s : head_outside p s -> head_outside p (Str.rstrip_by p s).
Proof.
  destruct s as [|c s]; simpl; [done|]. intros Hc.
  destruct (Str.rstrip_by p s); [by rewrite Hc|done].
Qed.

Lemma strip_idemp s : Str.strip (Str.strip s) = Str.strip s.
Proof.
  unfold Str.strip.
  rewrite (head_outside_lstrip_by _ (Str.rstrip_by _ _))
    by apply rstrip_by_head_outside, lstrip_by_head_outside.
  apply rstrip_by_idemp.
Qed.

Lemma lstrip_by_forallb q p s :
  string_forallb q s = true -> string_forallb q (Str.lstrip_by p s) = true.
Proof.
  induction s as [|c s IH]; [done|]. intros Hs. cbn [Str.lstrip_by].
  destruct (p c); [|done]. cbn [string_forallb] in Hs.
  apply andb_true_iff in Hs as [_ Hs]. by apply IH.
Qed.

Lemma rstrip_by_forallb q p s :
  string_forallb q s = true -> string_forallb q (Str.rstrip_by p s) = true.
Proof.
  induction s as [|c s IH]; [done|]. cbn [string_forallb Str.rstrip_by].
  intros [Hc Hs]%andb_true_iff. specialize (IH Hs).
  destruct (Str.rstrip_by p s) as [|c' r].
  - destruct (p c); [done|]. cbn [string_forallb]. by rewrite Hc.
  - cbn [string_forallb] in *. by rewrite Hc, IH.
Qed.

Lemma strip_forallb q s :
  string_forallb q s = true -> string_forallb q (Str.strip s) = true.
Proof. intros Hs. by apply rstrip_by_forallb, lstrip_by_forallb. Qed.

Lemma is_space_lower_char c : Str.is_space (Str.lower_char c) = Str.is_space c.
Proof. destruct c as [[] [] [] [] [] [] [] []]; vm_compute; reflexivity. Qed.

Lemma lstrip_lower s :
  Str.lstrip_by Str.is_space (Str.lower s) = Str.lower (Str.lstrip_by Str.is_space s).
Proof.
  induction s as [|c s IH]; [done|]. cbn [Str.lower Str.lstrip_by].
  rewrite is_space_lower_char, IH. by destruct (Str.is_space c).
Qed.

Lemma rstrip_lower s :
  Str.rstrip_by Str.is_space (Str.lower s) = Str.lower (Str.rstrip_by Str.is_space s).
Proof.
  induction s as [|c s IH]; [done|]. cbn [Str.lower Str.rstrip_by].
  rewrite is_space_lower_char, IH.
  destruct (Str.rstrip_by Str.is_space s); [|done]. by destruct (Str.is_space c).
Qed.

Lemma strip_lower s : Str.strip (Str.lower s) = Str.lower (Str.strip s).
Proof. unfold Str.strip. by rewrite lstrip_lower, rstrip_lower. Qed.

(** ** The explicit list of target files *)

Lemma select_target_files_cases disk repo_dir target_file :
  select_target_files disk repo_dir target_file
  = if wildcard_column target_file then wildcard_files disk repo_dir
    else List.filter (fun file => negb (String.eqb file EmptyString))
           (Str.strip <$> Str.split "," target_file).
Proof.
  unfold select_target_files, wildcard_column.
  destruct (Str.split "," target_file) as [|first rest] eqn:Hs.
  - by destruct (split_nonempty "," target_file).
  - cbn [hd]. destruct (_ || _); [apply wildcard_files_flat_map | done].
Qed.

(** X16. When the column of the target files is no wildcard, the target
    files are the items between its commas, stripped, in their order, the
    blank ones left out: each is non-empty, holds no comma and has no white
    space around it, and each item that is not blank is among them. *)
Theorem explicit_target_files_trimmed (disk : Disk) (repo_dir target_file : string) :
  wildcard_column target_file = false ->
  let target_files := select_target_files disk repo_dir target_file in
  Forall (fun f => f ≠ EmptyString /\ Str.strip f = f /\ no_comma f) target_files /\
  forall item,
    item ∈ Str.split "," target_file -> Str.strip item ≠ EmptyString ->
    Str.strip item ∈ target_files.
Proof.
  intros Hcol target_files. unfold target_files.
  rewrite select_target_files_cases, Hcol. split.
  - apply Forall_forall. intros f [Hne Hin]%list_elem_of_In%filter_In.
    apply list_elem_of_In, list_elem_of_fmap in Hne as (item & -> & Hitem).
    split; [by destruct (String.eqb_spec (Str.strip item) EmptyString)|].
    split; [apply strip_idemp|].
    apply strip_forallb.
    pose proof (split_pieces_no_sep "," target_file) as Hpieces.
    rewrite Forall_forall in Hpieces. by apply Hpieces.
  - intros item Hitem Hne. apply list_elem_of_In, filter_In. split.
    + apply list_elem_of_In, list_elem_of_fmap. by exists item.
    + by destruct (String.eqb_spec (Str.strip item) EmptyString).
Qed.

Lemma explicit_target_files_trimmed_witness :
  wildcard_column " Main.java , ,util.js" = false /\
  Forall (fun f => f ≠ EmptyString /\ Str.strip f = f /\ no_comma f)
    (select_target_files Demo.disk "hw1" " Main.java , ,util.js") /\
  select_target_files Demo.disk "hw1" " Main.java , ,util.js" = ["Main.java"; "util.js"].
Proof.
  assert (H : wildcard_column " Main.java , ,util.js" = false) by reflexivity.
  split; [exact H|].
  split; [|reflexivity].
  exact (proj1 (explicit_target_files_trimmed Demo.disk "hw1" " Main.java , ,util.js" H)).
Defined.

(** ** The handles of the roster *)

Lemma dict_set_Forall {V : Type} (P : string * V -> Prop) k v (d : Dict.t V) :
  P (k, v) -> Forall P d -> Forall P (Dict.set k v d).
Proof.
  intros Hkv. induction 1 as [|[k1 v1] d H1 Hd IH]; simpl; [by repeat constructor|].
  destruct (String.eqb_spec k1 k) as [->|Hne]; by constructor.
Qed.

Lemma fold_set_Forall (P : string * string -> Prop) pairs (d : Dict.t string) :
  Forall P pairs -> Forall P d ->
  Forall P (fold_left (fun d p => Dict.set p.1 p.2 d) pairs d).
Proof.
  intros Hpairs. revert d. induction Hpairs as [|[k v] pairs Hp _ IH]; intros d Hd; [done|].
  simpl. by apply IH, dict_set_Forall.
Qed.

(** X17. Every handle of the loaded roster is in lower case and has no white
    space around it, and no display name has white space around it, however
    the lines of the file were written. *)
Theorem loaded_roster_canonical (names_file : option string) :
  Forall (fun '(github_username, real_name) =>
            Str.lower github_username = github_username /\
            Str.strip github_username = github_username /\
            Str.strip real_name = real_name)
    (load_names_from_file names_file).
Proof.
  destruct names_file as [text|]; [|constructor]. unfold load_names_from_file.
  rewrite load_lines_fold. apply fold_set_Forall; [|constructor].
  apply Forall_fmap, Forall_forall. intros line _. unfold roster_pair. simpl.
  split; [apply lower_idemp|]. split; [|apply strip_idemp].
  by rewrite strip_lower, strip_idemp.
Qed.

(** ** The owner and the name of a repository *)

Lemma string_append_assoc s1 s2 s3 : (s1 +:+ s2) +:+ s3 = s1 +:+ (s2 +:+ s3).
Proof. induction s1 as [|c s1 IH]; [done|]. by rewrite !append_String, IH. Qed.

Lemma rstrip_slash_segment prefix name :
  no_slash name -> name ≠ EmptyString ->
  Str.rstrip_slash (prefix +:+ String "/" name) = prefix +:+ String "/" name.
Proof.
  intros Hname Hne. unfold Str.rstrip_slash. rewrite rstrip_by_app. simpl.
  rewrite rstrip_by_none by done. by destruct name.
Qed.

Lemma split_owner_name prefix owner name :
  no_slash owner -> no_slash name -> name ≠ EmptyString ->
  let repo_url := prefix +:+ String "/" (owner +:+ String "/" name) in
  Str.rstrip_slash repo_url = repo_url /\
  Adapter.from_end (Str.split "/" repo_url) 0 = Some name /\
  Adapter.from_end (Str.split "/" repo_url) 1 = Some owner.
Proof.
  intros Howner Hname Hne repo_url. unfold repo_url, Adapter.from_end. split.
  - change (String "/" (owner +:+ String "/" name))
      with (String "/" owner +:+ String "/" name).
    rewrite <- string_append_assoc. by apply rstrip_slash_segment.
  - rewrite !split_app_sep, (split_no_sep "/" owner), (split_no_sep "/" name) by done.
    by rewrite !reverse_app.
Qed.

(** X18. For a URL that ends in [owner/name], whatever comes before, the two
    functions on repositories ask [gh] about the repository [owner/name].
    [get_repo_created_date] returns the creation date of [owner/name], or the
    current time when the command fails, and raises [FileNotFoundError] when
    [gh] is not installed.  [get_repo_latest_commit_date], when [gh] is
    available, returns the first date [gh] reports for the default branch of
    [owner/name], or nothing when a command fails or the branch has no
    commit. *)
Theorem repo_functions_full_name (gh : Adapter.Gh) (prefix owner name : string) :
  no_slash owner -> no_slash name -> name ≠ EmptyString ->
  let repo_url := prefix +:+ String "/" (owner +:+ String "/" name) in
  let repo_full_name := owner +:+ String "/" name in
  Adapter.get_repo_created_date gh repo_url
  = (if Adapter.installed gh
     then Ok (default (Adapter.now gh) (Adapter.repo_createdAt_cmd gh repo_full_name))
     else Raise FileNotFoundError) /\
  (Adapter.check_gh_command gh = true ->
   Adapter.get_repo_latest_commit_date gh repo_url
   = Ok (branch_name ← Adapter.default_branch_cmd gh repo_full_name;
         commits ← Adapter.commits_cmd gh repo_full_name branch_name;
         head commits)).
Proof.
  intros Howner Hname Hne repo_url repo_full_name.
  destruct (split_owner_name prefix owner name Howner Hname Hne) as (Hstrip & H0 & H1).
  fold repo_url in Hstrip, H0, H1. split.
  - unfold Adapter.get_repo_created_date. rewrite Hstrip, H0, H1.
    change (owner +:+ "/" +:+ name) with repo_full_name.
    destruct (Adapter.installed gh); [|done]. simpl.
    by destruct (Adapter.repo_createdAt_cmd gh repo_full_name).
  - intros Hgh. unfold Adapter.get_repo_latest_commit_date.
    rewrite Hgh, Hstrip, H0, H1. simpl.
    change (owner +:+ "/" +:+ name) with repo_full_name.
    destruct (Adapter.default_branch_cmd gh repo_full_name) as [branch|]; [|done]. simpl.
    by destruct (Adapter.commits_cmd gh repo_full_name branch) as [[|d ds]|].
Qed.

Lemma repo_functions_full_name_witness :
  no_slash "org" /\ no_slash "hw1" /\ "hw1" ≠ EmptyString /\
  Adapter.get_repo_created_date DemoGh.gh "https://github.com/org/hw1"
  = Ok (mkDatetime 2024 1 1 10 0 0 0) /\
  Adapter.get_repo_created_date DemoGh.gh_down "https://github.com/org/hw1"
  = Raise FileNotFoundError.
Proof.
  assert (H1 : no_slash "org") by reflexivity.
  assert (H2 : no_slash "hw1") by reflexivity.
  assert (H3 : "hw1" ≠ EmptyString) by discriminate.
  split; [exact H1|]. split; [exact H2|]. split; [exact H3|]. split.
  - exact (proj1 (repo_functions_full_name DemoGh.gh "https://github.com" "org" "hw1"
                    H1 H2 H3)).
  - exact (proj1 (repo_functions_full_name DemoGh.gh_down "https://github.com" "org" "hw1"
                    H1 H2 H3)).
Defined.

(** X19. For a URL without slash the two functions raise:
    [get_repo_created_date] the [IndexError] of [split('/')[-2]], and
    [get_repo_latest_commit_date], which catches that [IndexError], the
    [UnboundLocalError] of the name its handler prints, unless [gh] is not
    available, when it returns nothing. *)
Theorem repo_functions_without_slash (gh : Adapter.Gh) (repo_url : string) :
  no_slash repo_url ->
  Adapter.get_repo_created_date gh repo_url = Raise IndexError /\
  Adapter.get_repo_latest_commit_date gh repo_url
  = if Adapter.check_gh_command gh then Raise UnboundLocalError else Ok None.
Proof.
  intros Hurl.
  unfold Adapter.get_repo_created_date, Adapter.get_repo_latest_commit_date,
    Str.rstrip_slash.
  rewrite rstrip_by_none by done. rewrite split_no_sep by done.
  split; [done|]. by destruct (Adapter.check_gh_command gh).
Qed.

Lemma repo_functions_without_slash_witness :
  no_slash "hw1" /\
  Adapter.get_repo_latest_commit_date DemoGh.gh "hw1" = Raise UnboundLocalError.
Proof.
  assert (H : no_slash "hw1") by reflexivity.
  split; [exact H|].
  exact (proj2 (repo_functions_without_slash DemoGh.gh "hw1" H)).
Defined.

(** ** Working copies: [clone_repo] *)



(** ** The entries of the feed are independent *)















(** Two entries with the same directory name do depend on each other: the
    wildcard of the second stands for the files of the repository of the
    first, which is the one on disk. *)
Example same_directory_entries_interfere :
  exists rows2 rows12,
    prepare_and_send_data Demo.w4 (Some Demo.roster) [Demo.hw_bob] = Ok (Some rows2) /\
    Target_Files <$> rows2 = ["Other.java"; "Other.java"] /\
    prepare_and_send_data Demo.w4 (Some Demo.roster) [Demo.hw_alice; Demo.hw_bob]
    = Ok (Some rows12) /\
    Target_Files <$> rows12 = ["Main.java"; "Main.java"; "Main.java"; "Main.java"].
Proof.
  eexists _, _. split; [vm_compute; reflexivity|]. split; [reflexivity|].
  split; [vm_compute; reflexivity|]. reflexivity.
Qed.

(** ** The order in which [get_pr_list] returns the pull requests *)

Lemma insert_desc_newest_first x l :
  newest_first l -> newest_first (Adapter.insert_desc x l).
Proof.
  induction l as [|y l IH]; simpl; [done|]. intros [Hy Hl].
  destruct (dt_gtb (Adapter.createdAt y) (Adapter.createdAt x)) eqn:Hyx; simpl.
  - split; [|by apply IH]. rewrite insert_desc_perm. constructor; [|done].
    by apply lex_ltb_asym.
  - split; [|done]. constructor; [done|].
    eapply Forall_impl; [exact Hy|]. intros z Hz. simpl in Hz.
    unfold dt_gtb in *. by eapply lex_le_trans.
Qed.

Lemma sort_desc_newest_first l : newest_first (Adapter.sort_desc l).
Proof.
  unfold Adapter.sort_desc. induction l as [|x l IH]; simpl; [done|].
  by apply insert_desc_newest_first.
Qed.

Lemma filter_newest_first (P : Adapter.pr_summary -> Prop) `{!forall x, Decision (P x)} l :
  newest_first l -> newest_first (filter P l).
Proof.
  induction l as [|x l IH]; [done|]. intros [Hx Hl].
  destruct (decide (P x)) as [HP|HP].
  - rewrite filter_cons_True by done. split; [|by apply IH].
    apply Forall_forall. intros y [_ Hy]%list_elem_of_filter.
    by eapply Forall_forall in Hx.
  - rewrite filter_cons_False by done. by apply IH.
Qed.

Lemma filter_login_absent a (l : list Adapter.pr_summary) :
  a ∉ Adapter.login <$> l -> filter (fun pr => Adapter.login pr = a) l = [].
Proof.
  intros Ha. induction l as [|x l IH]; [done|].
  rewrite fmap_cons, not_elem_of_cons in Ha. destruct Ha as [Hx Hl].
  rewrite filter_cons_False by done. by apply IH.
Qed.

Lemma groups_nil : groups [] [].
Proof.
  split; [constructor|]. split; [|constructor].
  intros a. simpl. split; by intros ?%elem_of_nil.
Qed.

Lemma filter_login_snoc a l pr :
  filter (fun pr => Adapter.login pr = a) (l ++ [pr])
  = filter (fun pr => Adapter.login pr = a) l
    ++ (if decide (Adapter.login pr = a) then [pr] else []).
Proof.
  by rewrite filter_app.
Qed.

(** One turn of the loop that fills [pr_dict]. *)
Lemma group_step_groups d l pr :
  groups d l -> groups (Adapter.group_step d pr) (l ++ [pr]).
Proof.
  intros (Hnd & Hkeys & Hids). unfold Adapter.group_step.
  assert (Hother : forall (k : string) (v : list Z * datetime),
    k ≠ Adapter.login pr ->
    fst v = Adapter.number <$> filter (fun pr => Adapter.login pr = k) l ->
    fst v = Adapter.number <$> filter (fun pr => Adapter.login pr = k) (l ++ [pr])).
  { intros k v Hk ->. rewrite filter_login_snoc.
    rewrite decide_False by done. by rewrite app_nil_r. }
  destruct (Dict.get (Adapter.login pr) d) as [[ids created]|] eqn:Hget.
  - pose proof Hget as (d1 & d2 & -> & Hset)%dict_set_present. rewrite Hset.
    assert (Hk : Adapter.login pr ∈ Dict.keys (d1 ++ (Adapter.login pr, (ids, created)) :: d2)).
    { apply dict_get_Some_keys. by rewrite Hget. }
    unfold groups, Dict.keys in *. rewrite !fmap_app, !fmap_cons in *. simpl in *.
    split; [done|]. split.
    { intros a. rewrite Hkeys, !elem_of_app, list_elem_of_singleton.
      split; [by left|]. intros [?| ->]; [done|]. by apply Hkeys. }
    apply NoDup_app in Hnd as (_ & Hd1 & [Hd2 _]%NoDup_cons).
    apply Forall_app in Hids as [H1 [Hme H2]%Forall_cons]. simpl in Hme.
    apply Forall_app. split; [|apply Forall_cons; split].
    + apply Forall_forall. intros [k v] Hkv. simpl. apply Hother.
      * intros ->. eapply Hd1; [|left]. apply list_elem_of_fmap. by exists (Adapter.login pr, v).
      * exact (proj1 (Forall_forall _ _) H1 (k, v) Hkv).
    + simpl. rewrite filter_login_snoc, decide_True by done.
      by rewrite fmap_app, <- Hme.
    + apply Forall_forall. intros [k v] Hkv. simpl. apply Hother.
      * intros ->. apply Hd2. apply list_elem_of_fmap. by exists (Adapter.login pr, v).
      * exact (proj1 (Forall_forall _ _) H2 (k, v) Hkv).
  - assert (Hk : Adapter.login pr ∉ Dict.keys d) by (by apply dict_get_None_keys).
    rewrite dict_set_absent by done.
    unfold groups, Dict.keys in *. rewrite !fmap_app in *. simpl in *.
    split; [|split].
    + apply NoDup_app. split; [done|]. split; [|apply NoDup_singleton].
      by intros x Hx ->%list_elem_of_singleton.
    + intros a. rewrite !elem_of_app, !list_elem_of_singleton. by rewrite Hkeys.
    + apply Forall_app. split.
      * apply Forall_forall. intros [k v] Hkv. simpl. apply Hother.
        -- intros ->. apply Hk. apply list_elem_of_fmap. by exists (Adapter.login pr, v).
        -- exact (proj1 (Forall_forall _ _) Hids (k, v) Hkv).
      * constructor; [|constructor]. simpl.
        rewrite filter_login_snoc, decide_True by done.
        rewrite filter_login_absent; [done|]. by rewrite <- Hkeys.
Qed.

Lemma fold_group_step_groups l d l0 :
  groups d l0 -> groups (fold_left Adapter.group_step l d) (l0 ++ l).
Proof.
  revert d l0. induction l as [|pr l IH]; intros d l0 Hd; simpl.
  - by rewrite app_nil_r.
  - change (l0 ++ pr :: l) with (l0 ++ [pr] ++ l).
    rewrite (assoc_L (++) l0 [pr] l). apply IH. by apply group_step_groups.
Qed.

Lemma groups_grouped_ids d l :
  groups d l ->
  grouped_ids d
  = flat_map (fun a => Adapter.number <$> filter (fun pr => Adapter.login pr = a) l)
      (Dict.keys d).
Proof.
  intros (_ & _ & Hids). unfold grouped_ids, Dict.items, Dict.keys.
  induction Hids as [|[k [ids c]] d Hk Hd IH]; simpl; [done|].
  simpl in Hk. by rewrite Hk, IH.
Qed.

Lemma fmap_flat_map {A B C : Type} (f : B -> C) (g : A -> list B) (l : list A) :
  f <$> flat_map g l = flat_map (fun x => f <$> g x) l.
Proof. induction l as [|x l IH]; simpl; [done|]. by rewrite fmap_app, IH. Qed.

(** X22. [get_pr_list] returns the pull requests login after login: the
    details of all the pull requests of one login come together, no login
    comes twice, the logins are those of the list [gh] printed, and the pull
    requests of one login are those [gh] listed for it, none of them later
    than one before it. *)
Theorem get_pr_list_groups_by_author (gh : Adapter.Gh) (repo_url : string)
    (listed : list Adapter.pr_summary) :
  Adapter.check_gh_command gh = true ->
  Adapter.pr_list_cmd gh repo_url = Some listed ->
  exists authors : list string,
    NoDup authors /\
    (forall a, a ∈ authors <-> a ∈ Adapter.login <$> listed) /\
    (forall a, by_author a listed ≡ₚ filter (fun pr => Adapter.login pr = a) listed /\
               newest_first (by_author a listed)) /\
    Adapter.get_pr_list gh repo_url
    = flat_map (fun a => (fun pr => Adapter.get_pr_details gh repo_url (Adapter.number pr))
                           <$> by_author a listed) authors.
Proof.
  intros Hgh Hlist.
  pose proof (fold_group_step_groups (Adapter.sort_desc listed) [] [] groups_nil) as Hg.
  rewrite app_nil_l in Hg.
  exists (Dict.keys (fold_left Adapter.group_step (Adapter.sort_desc listed) [])).
  split; [apply Hg|]. split; [|split].
  - intros a. destruct Hg as (_ & -> & _). by rewrite sort_desc_perm.
  - intros a. unfold by_author. split.
    + by rewrite sort_desc_perm.
    + apply filter_newest_first, sort_desc_newest_first.
  - rewrite (get_pr_list_details gh repo_url listed Hgh Hlist).
    rewrite (groups_grouped_ids _ _ Hg), fmap_flat_map.
    clear Hg.
    induction (Dict.keys _) as [|a authors IH]; simpl; [done|].
    rewrite IH. f_equal. unfold by_author. by rewrite <- list_fmap_compose.
Qed.

Lemma get_pr_list_groups_by_author_witness :
  Adapter.check_gh_command DemoGh.gh = true /\
  Adapter.pr_list_cmd DemoGh.gh DemoGh.url = Some DemoGh.listed /\
  exists authors : list string,
    NoDup authors /\
    (forall a, a ∈ authors <-> a ∈ Adapter.login <$> DemoGh.listed) /\
    Adapter.get_pr_list DemoGh.gh DemoGh.url
    = flat_map (fun a => (fun pr => Adapter.get_pr_details DemoGh.gh DemoGh.url
                                      (Adapter.number pr))
                           <$> by_author a DemoGh.listed) authors.
Proof.
  split; [reflexivity|]. split; [reflexivity|].
  destruct (get_pr_list_groups_by_author DemoGh.gh DemoGh.url DemoGh.listed
              eq_refl eq_refl) as (authors & H1 & H2 & _ & H4).
  exists authors. split; [exact H1|]. split; [exact H2|]. exact H4.
Defined.
